(** * music21.alpha.theoryAnalysis.theoryResult

    A shallow embedding of the result objects of [theoryResult.py] and the
    properties of their annotation operations ([color], [offset], [lyric],
    [hasEditorial], [markNoteEditorial]).

    The result objects never own the notes they annotate: they hold
    references to note objects that live elsewhere and that other findings may
    reference too.  Notes are therefore kept in a store indexed by
    reference, and every method is a computation over that store which can
    also raise an exception. *)

From Stdlib Require Import ZArith QArith.
From stdpp Require Import base option list strings gmap.

Local Open Scope string_scope.
Local Open Scope Z_scope.

(** ** Python values *)

(** The values kept in [editorial.misc] and compared with [==].  A float
    is either a finite number, taken as a rational, or NaN. *)
Inductive Value : Type :=
| VNone
| VBool (b : bool)
| VInt (z : Z)
| VFloat (q : Q)
| VNaN
| VStr (s : string).

(** Python's [==] on these values: [bool] is a subclass of [int], so
    [True == 1] and [False == 0]; numbers are compared by value across
    [bool], [int] and [float]; NaN equals nothing, itself included. *)
Definition py_eq (a b : Value) : bool :=
  match a, b with
  | VNone, VNone => true
  | VBool x, VBool y => Bool.eqb x y
  | VInt x, VInt y => Z.eqb x y
  | VBool x, VInt y => Z.eqb (Z.b2z x) y
  | VInt x, VBool y => Z.eqb x (Z.b2z y)
  | VFloat x, VFloat y => Qeq_bool x y
  | VFloat x, VInt y => Qeq_bool x (inject_Z y)
  | VInt x, VFloat y => Qeq_bool (inject_Z x) y
  | VFloat x, VBool y => Qeq_bool x (inject_Z (Z.b2z y))
  | VBool x, VFloat y => Qeq_bool (inject_Z (Z.b2z x)) y
  | VStr x, VStr y => String.eqb x y
  | _, _ => false
  end.

(** [x in noteList] for a tuple or list of integers. *)
Definition py_in (x : Z) (l : list Z) : bool := existsb (Z.eqb x) l.

(** Truth value of an optional list: [None] and [[]] are both false. *)
Definition py_truthy {A : Type} (l : option (list A)) : bool :=
  match l with
  | None | Some [] => false
  | Some (_ :: _) => true
  end.

(** [max(a, b, ...)] keeps the first of the largest arguments: the running
    maximum is replaced only by a strictly larger item. *)
Definition py_max (a : Q) (rest : list Q) : Q :=
  fold_left (fun m x => if Qlt_le_dec m x then x else m) rest a.

(** [min(a, b, ...)] keeps the first of the smallest arguments. *)
Definition py_min (a : Q) (rest : list Q) : Q :=
  fold_left (fun m x => if Qlt_le_dec x m then x else m) rest a.

(** [l[i]] on a Python list: a negative index counts from the end. *)
Definition py_index {A : Type} (l : list A) (i : Z) : option A :=
  let n := Z.of_nat (length l) in
  if (0 <=? i) && (i <? n) then l !! Z.to_nat i
  else if (- n <=? i) && (i <? 0) then l !! Z.to_nat (n + i)
  else None.

(** ** Notes *)

(** Modelled from the spec: the note class of the musical-object model is not
    part of this file.  A note exposes a mutable [color], a mutable [lyric],
    a mutable [editorial.misc] mapping from string keys to values, and a
    read-only [offset].  Offsets are finite numbers compared exactly, taken
    here as rationals. *)
Module Note.
Record t : Type := mk {
  color : option string;
  lyric : option string;
  editorial_misc : gmap string Value;
  offset : Q
}.

Definition with_color (c : string) (n : t) : t :=
  mk (Some c) (lyric n) (editorial_misc n) (offset n).

Definition with_lyric (v : string) (n : t) : t :=
  mk (color n) (Some v) (editorial_misc n) (offset n).

Definition with_misc (k : string) (v : Value) (n : t) : t :=
  mk (color n) (lyric n) (<[k := v]> (editorial_misc n)) (offset n).
End Note.

(** A reference to a note object. *)
Definition NoteRef : Type := nat.

(** ** The world: the note store and standard output *)

(** One line written by [print]: the tuple of objects printed after the
    literal ['color...']. *)
Record PrintLine : Type := mkPrintLine {
  pl_partNum : Z;
  pl_partNumIdentified : option Z;
  pl_nTupletNum : Z;
  pl_keys : gset Z
}.

Record World : Type := mkWorld {
  heap : NoteRef -> Note.t;
  stdout : list PrintLine
}.

Definition upd (h : NoteRef -> Note.t) (r : NoteRef) (n : Note.t) : NoteRef -> Note.t :=
  fun r' => if Nat.eqb r' r then n else h r'.

(** ** Computations: state and exceptions *)

Inductive exn : Type :=
| KeyError (k : Z)
| IndexError (i : Z)
| NotFound (partNum : Z).

Inductive outcome (A : Type) : Type :=
| Ok (a : A)
| Raise (e : exn).
Arguments Ok {A} a.
Arguments Raise {A} e.

(** A raised exception keeps the mutations made before it. *)
Definition M (A : Type) : Type := World -> outcome A * World.

#[global] Instance M_ret : MRet M := fun A a w => (Ok a, w).

#[global] Instance M_bind : MBind M := fun A B k m w =>
  match m w with
  | (Ok a, w') => k a w'
  | (Raise e, w') => (Raise e, w')
  end.

Definition raise {A : Type} (e : exn) : M A := fun w => (Raise e, w).

Definition when (b : bool) (m : M unit) : M unit := if b then m else mret tt.

(** [for x in l: body(x)] *)
Fixpoint for_each {A : Type} (l : list A) (body : A -> M unit) : M unit :=
  match l with
  | [] => mret tt
  | x :: l' => body x ;; for_each l' body
  end.

Definition get_note (r : NoteRef) : M Note.t := fun w => (Ok (heap w r), w).

Definition modify_note (r : NoteRef) (f : Note.t -> Note.t) : M unit :=
  fun w => (Ok tt, mkWorld (upd (heap w) r (f (heap w r))) (stdout w)).

(** [n.color = c] *)
Definition set_color (r : NoteRef) (c : string) : M unit :=
  modify_note r (Note.with_color c).

(** [n.lyric = v] *)
Definition set_lyric (r : NoteRef) (v : string) : M unit :=
  modify_note r (Note.with_lyric v).

(** [n.editorial.misc[k] = v] *)
Definition set_misc (r : NoteRef) (k : string) (v : Value) : M unit :=
  modify_note r (Note.with_misc k v).

(** [k in misc and misc[k] == v]: the entry is read only when it is there. *)
Definition misc_matches (misc : gmap string Value) (k : string) (v : Value) : bool :=
  match misc !! k with
  | Some x => py_eq x v
  | None => false
  end.

(** [k in n.editorial.misc and n.editorial.misc[k] == v] *)
Definition misc_is (r : NoteRef) (k : string) (v : Value) : M bool :=
  n ← get_note r;
  mret (misc_matches (Note.editorial_misc n) k v).

Definition print (l : PrintLine) : M unit :=
  fun w => (Ok tt, mkWorld (heap w) (stdout w ++ [l])).

(** [x or y] on truth values: [y] is evaluated only when [x] is false. *)
Definition py_or (x y : M bool) : M bool :=
  b ← x;
  if (b : bool) then mret true else y.

(** [d[k]] on a dict. *)
Definition getitem {V : Type} (d : gmap Z V) (k : Z) : M V :=
  match d !! k with
  | Some v => mret v
  | None => raise (KeyError k)
  end.

(** ** The findings being annotated *)

(** Modelled from the spec: the interval class is not part of this file.
    The pair-shaped finding references two notes, [noteStart] and
    [noteEnd]. *)
Module Interval.
Record t : Type := mk { noteStart : NoteRef; noteEnd : NoteRef }.
End Interval.

(** Modelled from the spec: the voice-leading quartet class is not part of
    this file.  The quad-shaped finding is a 2x2 grid of note references. *)
Module VoiceLeadingQuartet.
Record t : Type := mk {
  v1n1 : NoteRef; v1n2 : NoteRef;
  v2n1 : NoteRef; v2n2 : NoteRef
}.
End VoiceLeadingQuartet.

(** Modelled from the spec: the verticality class is not part of this file.
    A column exposes its note list, ordered by part, and the lookups
    [noteFromPart(partIndex)] and [getObjectsByPart(partIndex, filter)], which
    fail for a part index that is not in the column. *)
Module Verticality.
Record t : Type := mk { noteList : list NoteRef }.

(** The note of a part, when the column has that part. *)
Definition part_note (vs : t) (partNum : Z) : option NoteRef :=
  if 0 <=? partNum then noteList vs !! Z.to_nat partNum else None.

Definition noteFromPart (vs : t) (partNum : Z) : M NoteRef :=
  match part_note vs partNum with
  | Some r => mret r
  | None => raise (NotFound partNum)
  end.

Definition getObjectsByPart (vs : t) (partNum : Z) : M NoteRef :=
  noteFromPart vs partNum.
End Verticality.

(** Modelled from the spec: the three-note linear segment class is not part
    of this file.  The triple-shaped finding is an ordered triple of note
    references. *)
Module ThreeNoteLinearSegment.
Record t : Type := mk { n1 : NoteRef; n2 : NoteRef; n3 : NoteRef }.
End ThreeNoteLinearSegment.

(** ** class TheoryResult *)

Module TheoryResult.
Record t : Type := mk {
  text : string;
  value : string;
  currentColor : string
}.

(** [__init__] *)
Definition init : t := mk EmptyString EmptyString EmptyString.

Definition color (self : t) (color : string) : M t :=
  mret (mk (text self) (value self) color).
End TheoryResult.

(** ** class VLQTheoryResult *)

Module VLQTheoryResult.
Import VoiceLeadingQuartet.

Record t : Type := mk {
  text : string;
  value : string;
  currentColor : string;
  vlq : VoiceLeadingQuartet.t
}.

Definition init (vlq : VoiceLeadingQuartet.t) : t := mk EmptyString EmptyString EmptyString vlq.

Definition set_currentColor (c : string) (self : t) : t :=
  mk (text self) (value self) c (vlq self).

(** An omitted argument is [None]; the defaults are those of the [def]. *)
Definition color (self : t) (color : option string) (noteList : option (list Z)) : M t :=
  let color := default "red" color in
  let noteList := default [1; 2; 3; 4] noteList in
  let self := set_currentColor color self in
  when (py_in 1 noteList) (set_color (v1n1 (vlq self)) color) ;;
  when (py_in 2 noteList) (set_color (v1n2 (vlq self)) color) ;;
  when (py_in 3 noteList) (set_color (v2n1 (vlq self)) color) ;;
  when (py_in 4 noteList) (set_color (v2n2 (vlq self)) color) ;;
  mret self.

Definition offset (self : t) (leftAlign : option bool) : M Q :=
  let leftAlign := default false leftAlign in
  a ← get_note (v1n1 (vlq self));
  b ← get_note (v2n1 (vlq self));
  c ← get_note (v1n2 (vlq self));
  d ← get_note (v2n2 (vlq self));
  if leftAlign
  then mret (py_min (Note.offset a) [Note.offset b; Note.offset c; Note.offset d])
  else mret (py_max (Note.offset a) [Note.offset b; Note.offset c; Note.offset d]).

Definition hasEditorial (self : t) (miscKey : string) (editorialValue : option Value) : M bool :=
  let editorialValue := default (VBool true) editorialValue in
  py_or (misc_is (v1n1 (vlq self)) miscKey editorialValue)
    (py_or (misc_is (v1n2 (vlq self)) miscKey editorialValue)
       (py_or (misc_is (v2n1 (vlq self)) miscKey editorialValue)
          (misc_is (v2n2 (vlq self)) miscKey editorialValue))).

Definition markNoteEditorial (self : t) (editorialDictKey : string)
    (editorialValue : Value) (editorialMarkList : option (list Z)) : M t :=
  let editorialMarkList := default [1; 2; 3; 4] editorialMarkList in
  when (py_in 1 editorialMarkList)
    (set_misc (v1n1 (vlq self)) editorialDictKey editorialValue) ;;
  when (py_in 2 editorialMarkList)
    (set_misc (v1n2 (vlq self)) editorialDictKey editorialValue) ;;
  when (py_in 3 editorialMarkList)
    (set_misc (v2n1 (vlq self)) editorialDictKey editorialValue) ;;
  when (py_in 4 editorialMarkList)
    (set_misc (v2n2 (vlq self)) editorialDictKey editorialValue) ;;
  mret self.
End VLQTheoryResult.

(** ** class IntervalTheoryResult *)

Module IntervalTheoryResult.
Import Interval.

Record t : Type := mk {
  text : string;
  value : string;
  currentColor : string;
  intv : Interval.t
}.

Definition init (intv : Interval.t) : t := mk EmptyString EmptyString EmptyString intv.

Definition set_currentColor (c : string) (self : t) : t :=
  mk (text self) (value self) c (intv self).

Definition color (self : t) (color : option string) (noteList : option (list Z)) : M t :=
  let color := default "red" color in
  let noteList := default [1; 2] noteList in
  let self := set_currentColor color self in
  when (py_in 1 noteList) (set_color (noteStart (intv self)) color) ;;
  when (py_in 2 noteList) (set_color (noteEnd (intv self)) color) ;;
  mret self.

Definition offset (self : t) (leftAlign : option bool) : M Q :=
  let leftAlign := default false leftAlign in
  a ← get_note (noteStart (intv self));
  b ← get_note (noteEnd (intv self));
  if leftAlign
  then mret (py_min (Note.offset a) [Note.offset b])
  else mret (py_max (Note.offset a) [Note.offset b]).

Definition lyric (self : t) (value : string) (noteList : option (list Z)) : M t :=
  let noteList := default [2] noteList in
  when (py_in 1 noteList) (set_lyric (noteStart (intv self)) value) ;;
  when (py_in 2 noteList) (set_lyric (noteEnd (intv self)) value) ;;
  mret self.

Definition hasEditorial (self : t) (miscKey : string) (editorialValue : option Value) : M bool :=
  let editorialValue := default (VBool true) editorialValue in
  py_or (misc_is (noteStart (intv self)) miscKey editorialValue)
    (misc_is (noteEnd (intv self)) miscKey editorialValue).
End IntervalTheoryResult.

(** ** class NoteTheoryResult *)

Module NoteTheoryResult.
Record t : Type := mk {
  text : string;
  value : string;
  currentColor : string;
  n : NoteRef
}.

Definition init (n : NoteRef) : t := mk EmptyString EmptyString EmptyString n.

Definition set_currentColor (c : string) (self : t) : t :=
  mk (text self) (value self) c (n self).

Definition color (self : t) (color : option string) : M t :=
  let color := default "red" color in
  let self := set_currentColor color self in
  set_color (n self) color ;;
  mret self.
End NoteTheoryResult.

(** ** class VerticalityTheoryResult *)

Module VerticalityTheoryResult.
Record t : Type := mk {
  text : string;
  value : string;
  currentColor : string;
  vs : Verticality.t
}.

Definition init (vs : Verticality.t) : t := mk EmptyString EmptyString EmptyString vs.

Definition color (self : t) (color : option string) (partList : option (list Z)) : M t :=
  let color := default "red" color in
  (if py_truthy partList
   then for_each (default [] partList) (fun partNum =>
          r ← Verticality.noteFromPart (vs self) partNum;
          set_color r color)
   else for_each (Verticality.noteList (vs self)) (fun n =>
          set_color n color)) ;;
  mret self.
End VerticalityTheoryResult.

(** ** class ThreeNoteLinearSegmentTheoryResult *)

Module ThreeNoteLinearSegmentTheoryResult.
Import ThreeNoteLinearSegment.

Record t : Type := mk {
  text : string;
  value : string;
  currentColor : string;
  tnls : ThreeNoteLinearSegment.t
}.

Definition init (tnls : ThreeNoteLinearSegment.t) : t := mk EmptyString EmptyString EmptyString tnls.

Definition color (self : t) (color : option string) (noteList : option (list Z)) : M t :=
  let color := default "red" color in
  let noteList := default [2] noteList in
  when (py_in 1 noteList) (set_color (n1 (tnls self)) color) ;;
  when (py_in 2 noteList) (set_color (n2 (tnls self)) color) ;;
  when (py_in 3 noteList) (set_color (n3 (tnls self)) color) ;;
  mret self.
End ThreeNoteLinearSegmentTheoryResult.

(** Modelled from the spec: the verticality n-tuplet class is not part of
    this file.  A group exposes its arity [nTupletNum], the mapping
    [tnlsDict] from part number to triple-shaped sub-finding, and the ordered
    list [verticalities] of its columns. *)
Module VerticalityNTuplet.
Record t : Type := mk {
  nTupletNum : Z;
  tnlsDict : gmap Z ThreeNoteLinearSegmentTheoryResult.t;
  verticalities : list Verticality.t
}.

(** The sub-findings are objects shared with the dictionary: what a method
    does to one of them is seen through [tnlsDict]. *)
Definition store_tnls (k : Z) (sub : ThreeNoteLinearSegmentTheoryResult.t) (g : t) : t :=
  mk (nTupletNum g) (<[k := sub]> (tnlsDict g)) (verticalities g).

(** [self.verticalities[vsNum]] *)
Definition verticality_at (g : t) (vsNum : Z) : M Verticality.t :=
  match py_index (verticalities g) vsNum with
  | Some v => mret v
  | None => raise (IndexError vsNum)
  end.
End VerticalityNTuplet.

(** ** class VerticalityNTupletTheoryResult *)

Module VerticalityNTupletTheoryResult.
Import VerticalityNTuplet.

Record t : Type := mk {
  text : string;
  value : string;
  currentColor : string;
  vsnt : VerticalityNTuplet.t;
  partNumIdentified : option Z
}.

Definition init (vsnt : VerticalityNTuplet.t) (partNumIdentified : option Z) : t :=
  mk EmptyString EmptyString EmptyString vsnt partNumIdentified.

Definition set_vsnt (g : VerticalityNTuplet.t) (self : t) : t :=
  mk (text self) (value self) (currentColor self) g (partNumIdentified self).

(** [self.vsnt.tnlsDict[k].color(color, ...)]: the sub-finding is looked up
    and its own [color] is run on it. *)
Definition color_tnls (self : t) (k : Z) (color : string) (noteList : option (list Z)) : M t :=
  sub ← getitem (tnlsDict (vsnt self)) k;
  sub' ← ThreeNoteLinearSegmentTheoryResult.color sub (Some color) noteList;
  mret (set_vsnt (store_tnls k sub' (vsnt self)) self).

(** The objects printed by [color] when [partNum] is given. *)
Definition color_line (self : t) (partNum : Z) : PrintLine :=
  mkPrintLine partNum (partNumIdentified self) (nTupletNum (vsnt self))
    (dom (tnlsDict (vsnt self))).

Definition color (self : t) (color : option string) (partNum : option Z)
    (noteList : option (list Z)) : M t :=
  let color := default "red" color in
  let noteList := match noteList with None => [] | Some l => l end in
  match partNum with
  | Some partNum =>
      print (color_line self partNum) ;;
      if nTupletNum (vsnt self) =? 3
      then color_tnls self partNum color None
      else mret self
  | None =>
      match partNumIdentified self with
      | Some identified =>
          if nTupletNum (vsnt self) =? 3
          then color_tnls self identified color (Some [2])
          else mret self
      | None => mret self
      end
  end.

Definition markNoteEditorial (self : t) (editorialDictKey : string)
    (editorialValue : Value) (editorialMarkDict : option (list (Z * list Z))) : M t :=
  let editorialMarkDict := default [(2, [1])] editorialMarkDict in
  for_each editorialMarkDict (fun '(vsNum, partNumList) =>
    for_each partNumList (fun unused_counter_partNum =>
      v ← verticality_at (vsnt self) vsNum;
      r ← Verticality.getObjectsByPart v 0;
      set_misc r editorialDictKey editorialValue)) ;;
  mret self.
End VerticalityNTupletTheoryResult.

Local Close Scope string_scope.

(** ** Effect of a computation on the note store *)

(** [heap_marks f targets h h']: going from [h] to [h'], every note
    referenced in [targets] has had [f] applied to it and every other note is
    what it was. *)
Definition heap_marks (f : Note.t → Note.t) (targets : list NoteRef)
    (h h' : NoteRef → Note.t) : Prop :=
  ∀ r : NoteRef, h' r = if bool_decide (r ∈ targets) then f (h r) else h r.

(** The same between two worlds, with nothing printed. *)
Definition marks (f : Note.t → Note.t) (targets : list NoteRef) (w w' : World) : Prop :=
  stdout w' = stdout w ∧ heap_marks f targets (heap w) (heap w').

(** The computation [m] cannot raise, and marks exactly [targets]. *)
Definition marks_exactly {T : Type} (m : M T) (f : Note.t → Note.t)
    (targets : list NoteRef) : Prop :=
  ∀ w, ∃ x w', m w = (Ok x, w') ∧ marks f targets w w'.

(** The positions of a shape: selector and the note it stands for. *)
Definition positions : Type := list (Z * NoteRef).

(** The notes at the positions named by the selection, in position order. *)
Fixpoint selected (sel : list Z) (ps : positions) : list NoteRef :=
  match ps with
  | [] => []
  | (p, r) :: ps' => if py_in p sel then r :: selected sel ps' else selected sel ps'
  end.

Definition pair_positions (i : Interval.t) : positions :=
  [(1, Interval.noteStart i); (2, Interval.noteEnd i)].

Definition quad_positions (q : VoiceLeadingQuartet.t) : positions :=
  [(1, VoiceLeadingQuartet.v1n1 q); (2, VoiceLeadingQuartet.v1n2 q);
   (3, VoiceLeadingQuartet.v2n1 q); (4, VoiceLeadingQuartet.v2n2 q)].

Definition triple_positions (s : ThreeNoteLinearSegment.t) : positions :=
  [(1, ThreeNoteLinearSegment.n1 s); (2, ThreeNoteLinearSegment.n2 s);
   (3, ThreeNoteLinearSegment.n3 s)].

(** The constituent notes of the pair and quad shapes, in the order the
    [offset] methods read them. *)
Definition pair_notes (i : Interval.t) : list NoteRef :=
  [Interval.noteStart i; Interval.noteEnd i].

Definition quad_notes (q : VoiceLeadingQuartet.t) : list NoteRef :=
  [VoiceLeadingQuartet.v1n1 q; VoiceLeadingQuartet.v2n1 q;
   VoiceLeadingQuartet.v1n2 q; VoiceLeadingQuartet.v2n2 q].

(** The offsets of the notes referenced. *)
Definition offsets (w : World) (refs : list NoteRef) : list Q :=
  (λ r, Note.offset (heap w r)) <$> refs.

(** [q] is one of [l] and bounds all of [l]: from below when [least], from
    above otherwise. *)
Definition extremum (least : bool) (q : Q) (l : list Q) : Prop :=
  q ∈ l ∧ ∀ x, x ∈ l → if least then (q <= x)%Q else (x <= q)%Q.

(** The note referenced by [r] has an editorial entry under [k] equal to
    [v]. *)
Definition carries (w : World) (k : string) (v : Value) (r : NoteRef) : Prop :=
  ∃ x, Note.editorial_misc (heap w r) !! k = Some x ∧ py_eq x v = true.

(** ** Sample data *)

Definition blank : Note.t := Note.mk None None ∅ 0%Q.

(** A world whose notes are all fresh, with nothing printed yet. *)
Definition fresh_world : World := mkWorld (λ _, blank) [].

Definition sample_tnls : ThreeNoteLinearSegmentTheoryResult.t :=
  ThreeNoteLinearSegmentTheoryResult.init (ThreeNoteLinearSegment.mk 1%nat 2%nat 3%nat).

Definition sample_column : Verticality.t := Verticality.mk [10; 11]%nat.

Definition sample_triplet : VerticalityNTuplet.t :=
  VerticalityNTuplet.mk 3 {[ 0 := sample_tnls ]}
    [Verticality.mk [1; 4]%nat; Verticality.mk [2; 5]%nat; Verticality.mk [3; 6]%nat].

Definition sample_group : VerticalityNTupletTheoryResult.t :=
  VerticalityNTupletTheoryResult.init sample_triplet None.

Definition sample_duplet : VerticalityNTuplet.t :=
  VerticalityNTuplet.mk 2 {[ 0 := sample_tnls ]}
    [Verticality.mk [1; 4]%nat; Verticality.mk [2; 5]%nat].

Definition sample_interval : IntervalTheoryResult.t :=
  IntervalTheoryResult.init (Interval.mk 1%nat 2%nat).

(** A world where note 1 carries the editorial entry ["flag"] with value 1. *)
Definition flagged_world : World :=
  mkWorld (λ r, if Nat.eqb r 1
                then Note.mk None None {[ "flag"%string := VInt 1 ]} 0%Q
                else blank) [].

(** A quad whose first voice holds its note: positions 1 and 2 are the same
    note object. *)
Definition held_quad : VLQTheoryResult.t :=
  VLQTheoryResult.init (VoiceLeadingQuartet.mk 1%nat 1%nat 3%nat 4%nat).

Definition sample_quad : VLQTheoryResult.t :=
  VLQTheoryResult.init (VoiceLeadingQuartet.mk 1%nat 2%nat 3%nat 4%nat).

(** ** Vocabulary for the group's editorial marking *)

(** The column indices the loops of [markNoteEditorial] visit, in order: the
    key of each entry of the plan, once for every element of its list. *)
Fixpoint plan_visits (plan : list (Z * list Z)) : list Z :=
  match plan with
  | [] => []
  | (vsNum, partNumList) :: plan' =>
      replicate (length partNumList) vsNum ++ plan_visits plan'
  end.

(** The note one visit marks: the part-0 note of the column at that index. *)
Definition mark_target (g : VerticalityNTuplet.t) (vsNum : Z) : option NoteRef :=
  match py_index (VerticalityNTuplet.verticalities g) vsNum with
  | Some v => Verticality.part_note v 0
  | None => None
  end.

(** The exception of a visit that finds no such note. *)
Definition mark_error (g : VerticalityNTuplet.t) (vsNum : Z) : exn :=
  match py_index (VerticalityNTuplet.verticalities g) vsNum with
  | Some _ => NotFound 0
  | None => IndexError vsNum
  end.

(** Two stores hold the same note at every reference. *)
Definition same_notes (w w' : World) : Prop := ∀ r : NoteRef, heap w' r = heap w r.

(** Running the method a second time, on the object and the world the first
    run left, returns normally and changes neither. *)
Definition idempotent_method {T : Type} (m : T → M T) : Prop :=
  ∀ (self : T) (w : World),
    ∃ self' w1 w2,
      m self w = (Ok self', w1) ∧ m self' w1 = (Ok self', w2) ∧
      stdout w2 = stdout w1 ∧ same_notes w1 w2.

(** Unfolds the monad operations of a straight-line method body. *)
Ltac run :=
  unfold when, set_color, set_lyric, set_misc, mbind, M_bind, mret, M_ret; cbn.

(** ** Lemmas on the store *)

Section Marks.
Variable f : Note.t → Note.t.
Hypothesis f_idem : ∀ n, f (f n) = f n.

Lemma marks_refl (w : World) : marks f [] w w.
Proof.
  split; [done|]. intros r.
  rewrite bool_decide_eq_false_2; [done|]. apply not_elem_of_nil.
Qed.

Lemma marks_modify (ts : list NoteRef) (r : NoteRef) (w0 w : World) :
  marks f ts w0 w →
  marks f (ts ++ [r]) w0 (modify_note r f w).2.
Proof.
  intros [Hout Hheap]. split; [done|]. intros r'. cbn. unfold upd.
  destruct (Nat.eqb_spec r' r) as [->|Hne].
  - rewrite bool_decide_eq_true_2.
    + rewrite Hheap. case_bool_decide; [apply f_idem | done].
    + apply elem_of_app. right. apply list_elem_of_singleton. done.
  - rewrite Hheap. apply (f_equal (λ b : bool, if b then _ else _)).
    apply bool_decide_ext. rewrite elem_of_app, list_elem_of_singleton. tauto.
Qed.

Lemma marks_ext (ts ts' : list NoteRef) (w0 w : World) :
  (∀ r, r ∈ ts ↔ r ∈ ts') → marks f ts w0 w → marks f ts' w0 w.
Proof.
  intros Heq [Hout Hheap]. split; [done|]. intros r. rewrite Hheap.
  apply (f_equal (λ b : bool, if b then _ else _)), bool_decide_ext, Heq.
Qed.

(** [if p in sel: note_p.attr = v], for each position in turn. *)
Lemma for_positions_marks (sel : list Z) (ps : positions) :
  ∀ (ts : list NoteRef) (w0 w : World),
    marks f ts w0 w →
    ∃ w', for_each ps (λ pr, when (py_in pr.1 sel) (modify_note pr.2 f)) w = (Ok (), w')
          ∧ marks f (ts ++ selected sel ps) w0 w'.
Proof.
  induction ps as [|[p r] ps IH]; intros ts w0 w Hm.
  - exists w. split; [done|]. by rewrite app_nil_r.
  - cbn [for_each selected fst snd]. destruct (py_in p sel); cbn.
    + destruct (IH (ts ++ [r]) w0 _ (marks_modify ts r w0 w Hm)) as (w' & Hrun & Hm').
      exists w'. split; [exact Hrun|]. by rewrite <- app_assoc in Hm'.
    + exact (IH ts w0 w Hm).
Qed.

(** [for n in refs: n.attr = v] *)
Lemma for_refs_marks (refs : list NoteRef) :
  ∀ (ts : list NoteRef) (w0 w : World),
    marks f ts w0 w →
    ∃ w', for_each refs (λ r, modify_note r f) w = (Ok (), w')
          ∧ marks f (ts ++ refs) w0 w'.
Proof.
  induction refs as [|r refs IH]; intros ts w0 w Hm.
  - exists w. split; [done|]. by rewrite app_nil_r.
  - cbn [for_each]. cbn.
    destruct (IH (ts ++ [r]) w0 _ (marks_modify ts r w0 w Hm)) as (w' & Hrun & Hm').
    exists w'. split; [exact Hrun|]. by rewrite <- app_assoc in Hm'.
Qed.
End Marks.

Lemma with_color_idem (c : string) (n : Note.t) :
  Note.with_color c (Note.with_color c n) = Note.with_color c n.
Proof. reflexivity. Qed.

Lemma with_lyric_idem (v : string) (n : Note.t) :
  Note.with_lyric v (Note.with_lyric v n) = Note.with_lyric v n.
Proof. reflexivity. Qed.

Lemma with_misc_idem (k : string) (v : Value) (n : Note.t) :
  Note.with_misc k v (Note.with_misc k v n) = Note.with_misc k v n.
Proof. unfold Note.with_misc. cbn. by rewrite insert_insert_eq. Qed.

(** Each positional method is the loop over its positions. *)
Lemma quad_color_run (self : VLQTheoryResult.t) (co : option string)
    (sel : option (list Z)) (w : World) :
  let c := default "red"%string co in
  VLQTheoryResult.color self co sel w =
  (Ok (VLQTheoryResult.set_currentColor c self),
   (for_each (quad_positions (VLQTheoryResult.vlq self))
      (λ pr, when (py_in pr.1 (default [1; 2; 3; 4] sel))
               (modify_note pr.2 (Note.with_color c))) w).2).
Proof.
  unfold VLQTheoryResult.color, quad_positions. run.
  repeat (destruct (py_in _ _); cbn); reflexivity.
Qed.

Lemma quad_mark_run (self : VLQTheoryResult.t) (k : string) (v : Value)
    (sel : option (list Z)) (w : World) :
  VLQTheoryResult.markNoteEditorial self k v sel w =
  (Ok self,
   (for_each (quad_positions (VLQTheoryResult.vlq self))
      (λ pr, when (py_in pr.1 (default [1; 2; 3; 4] sel))
               (modify_note pr.2 (Note.with_misc k v))) w).2).
Proof.
  unfold VLQTheoryResult.markNoteEditorial, quad_positions. run.
  repeat (destruct (py_in _ _); cbn); reflexivity.
Qed.

Lemma pair_color_run (self : IntervalTheoryResult.t) (co : option string)
    (sel : option (list Z)) (w : World) :
  let c := default "red"%string co in
  IntervalTheoryResult.color self co sel w =
  (Ok (IntervalTheoryResult.set_currentColor c self),
   (for_each (pair_positions (IntervalTheoryResult.intv self))
      (λ pr, when (py_in pr.1 (default [1; 2] sel))
               (modify_note pr.2 (Note.with_color c))) w).2).
Proof.
  unfold IntervalTheoryResult.color, pair_positions. run.
  repeat (destruct (py_in _ _); cbn); reflexivity.
Qed.

Lemma pair_lyric_run (self : IntervalTheoryResult.t) (v : string)
    (sel : option (list Z)) (w : World) :
  IntervalTheoryResult.lyric self v sel w =
  (Ok self,
   (for_each (pair_positions (IntervalTheoryResult.intv self))
      (λ pr, when (py_in pr.1 (default [2] sel))
               (modify_note pr.2 (Note.with_lyric v))) w).2).
Proof.
  unfold IntervalTheoryResult.lyric, pair_positions. run.
  repeat (destruct (py_in _ _); cbn); reflexivity.
Qed.

Lemma triple_color_run (self : ThreeNoteLinearSegmentTheoryResult.t)
    (co : option string) (sel : option (list Z)) (w : World) :
  ThreeNoteLinearSegmentTheoryResult.color self co sel w =
  (Ok self,
   (for_each (triple_positions (ThreeNoteLinearSegmentTheoryResult.tnls self))
      (λ pr, when (py_in pr.1 (default [2] sel))
               (modify_note pr.2 (Note.with_color (default "red"%string co)))) w).2).
Proof.
  unfold ThreeNoteLinearSegmentTheoryResult.color, triple_positions. run.
  repeat (destruct (py_in _ _); cbn); reflexivity.
Qed.

(** A method that is the loop over its positions marks the selected ones. *)
Lemma positional_marks {T : Type} (m : M T) (x : T) (f : Note.t → Note.t)
    (sel : list Z) (ps : positions) :
  (∀ n, f (f n) = f n) →
  (∀ w, m w = (Ok x, (for_each ps (λ pr, when (py_in pr.1 sel) (modify_note pr.2 f)) w).2)) →
  marks_exactly m f (selected sel ps).
Proof.
  intros Hf Hrun w.
  destruct (for_positions_marks f Hf sel ps [] w w (marks_refl f w)) as (w' & Hloop & Hm).
  exists x, w'. split; [|exact Hm]. by rewrite Hrun, Hloop.
Qed.

Lemma triple_color_marks (self : ThreeNoteLinearSegmentTheoryResult.t)
    (co : option string) (sel : option (list Z)) :
  marks_exactly (ThreeNoteLinearSegmentTheoryResult.color self co sel)
    (Note.with_color (default "red"%string co))
    (selected (default [2] sel)
       (triple_positions (ThreeNoteLinearSegmentTheoryResult.tnls self))).
Proof.
  apply (positional_marks _ self); [apply with_color_idem|].
  apply triple_color_run.
Qed.

(** ** Positional selection *)

(** Claim C5, as amended.  For pair, quad and triple results, [color],
    [lyric] and [markNoteEditorial] called with an explicit selection list
    return normally for every list of selectors, and change exactly the note
    objects at the listed positions of the shape (pair 1-2, quad 1-4, triple
    1-3): those notes get the color, lyric or editorial entry and keep their
    other attributes; a selector outside the shape's positions selects
    nothing; and every note object that no listed position holds is left as
    it was, so that the note at an unselected position keeps its state
    unless a listed position holds the same object. *)
Theorem selection_marks_exactly_listed_positions :
  (∀ (self : IntervalTheoryResult.t) (c : string) (sel : list Z),
     marks_exactly (IntervalTheoryResult.color self (Some c) (Some sel))
       (Note.with_color c)
       (selected sel (pair_positions (IntervalTheoryResult.intv self)))) ∧
  (∀ (self : IntervalTheoryResult.t) (v : string) (sel : list Z),
     marks_exactly (IntervalTheoryResult.lyric self v (Some sel))
       (Note.with_lyric v)
       (selected sel (pair_positions (IntervalTheoryResult.intv self)))) ∧
  (∀ (self : VLQTheoryResult.t) (c : string) (sel : list Z),
     marks_exactly (VLQTheoryResult.color self (Some c) (Some sel))
       (Note.with_color c)
       (selected sel (quad_positions (VLQTheoryResult.vlq self)))) ∧
  (∀ (self : VLQTheoryResult.t) (k : string) (v : Value) (sel : list Z),
     marks_exactly (VLQTheoryResult.markNoteEditorial self k v (Some sel))
       (Note.with_misc k v)
       (selected sel (quad_positions (VLQTheoryResult.vlq self)))) ∧
  (∀ (self : ThreeNoteLinearSegmentTheoryResult.t) (c : string) (sel : list Z),
     marks_exactly (ThreeNoteLinearSegmentTheoryResult.color self (Some c) (Some sel))
       (Note.with_color c)
       (selected sel (triple_positions (ThreeNoteLinearSegmentTheoryResult.tnls self)))).
Proof.
  repeat split; intros.
  - apply (positional_marks _ (IntervalTheoryResult.set_currentColor c self));
      [apply with_color_idem|]. intros w. apply (pair_color_run self (Some c) (Some sel)).
  - apply (positional_marks _ self); [apply with_lyric_idem|].
    intros w. apply (pair_lyric_run self v (Some sel)).
  - apply (positional_marks _ (VLQTheoryResult.set_currentColor c self));
      [apply with_color_idem|]. intros w. apply (quad_color_run self (Some c) (Some sel)).
  - apply (positional_marks _ self); [apply with_misc_idem|].
    intros w. apply (quad_mark_run self k v (Some sel)).
  - apply (triple_color_marks self (Some c) (Some sel)).
Qed.

(** ** Offsets *)

Lemma py_max_spec (rest : list Q) :
  ∀ a, py_max a rest ∈ a :: rest ∧ ∀ x, x ∈ a :: rest → (x <= py_max a rest)%Q.
Proof.
  unfold py_max. induction rest as [|b rest IH]; intros a; cbn [fold_left].
  - split; [apply list_elem_of_here|].
    intros x Hx. apply list_elem_of_singleton in Hx as ->. apply Qle_refl.
  - destruct (Qlt_le_dec a b) as [Hlt|Hle].
    + destruct (IH b) as [Hin Hub]. split.
      * apply list_elem_of_further, Hin.
      * intros x Hx. apply elem_of_cons in Hx as [->|Hx]; [|by apply Hub].
        apply Qle_trans with b; [by apply Qlt_le_weak|]. apply Hub, list_elem_of_here.
    + destruct (IH a) as [Hin Hub]. split.
      * apply elem_of_cons in Hin as [Hin|Hin];
          [rewrite Hin; apply list_elem_of_here | by do 2 apply list_elem_of_further].
      * intros x Hx. apply elem_of_cons in Hx as [->|Hx]; [apply Hub, list_elem_of_here|].
        apply elem_of_cons in Hx as [->|Hx].
        -- apply Qle_trans with a; [done|]. apply Hub, list_elem_of_here.
        -- by apply Hub, list_elem_of_further.
Qed.

Lemma py_min_spec (rest : list Q) :
  ∀ a, py_min a rest ∈ a :: rest ∧ ∀ x, x ∈ a :: rest → (py_min a rest <= x)%Q.
Proof.
  unfold py_min. induction rest as [|b rest IH]; intros a; cbn [fold_left].
  - split; [apply list_elem_of_here|].
    intros x Hx. apply list_elem_of_singleton in Hx as ->. apply Qle_refl.
  - destruct (Qlt_le_dec b a) as [Hlt|Hle].
    + destruct (IH b) as [Hin Hlb]. split.
      * apply list_elem_of_further, Hin.
      * intros x Hx. apply elem_of_cons in Hx as [->|Hx]; [|by apply Hlb].
        apply Qle_trans with b; [|by apply Qlt_le_weak]. apply Hlb, list_elem_of_here.
    + destruct (IH a) as [Hin Hlb]. split.
      * apply elem_of_cons in Hin as [Hin|Hin];
          [rewrite Hin; apply list_elem_of_here | by do 2 apply list_elem_of_further].
      * intros x Hx. apply elem_of_cons in Hx as [->|Hx]; [apply Hlb, list_elem_of_here|].
        apply elem_of_cons in Hx as [->|Hx].
        -- apply Qle_trans with a; [|done]. apply Hlb, list_elem_of_here.
        -- by apply Hlb, list_elem_of_further.
Qed.

Lemma pair_offset_run (self : IntervalTheoryResult.t) (leftAlign : option bool)
    (w : World) :
  let a := Note.offset (heap w (Interval.noteStart (IntervalTheoryResult.intv self))) in
  let b := Note.offset (heap w (Interval.noteEnd (IntervalTheoryResult.intv self))) in
  IntervalTheoryResult.offset self leftAlign w =
  (Ok (if default false leftAlign then py_min a [b] else py_max a [b]), w).
Proof.
  unfold IntervalTheoryResult.offset. destruct (default false leftAlign); reflexivity.
Qed.

Lemma quad_offset_run (self : VLQTheoryResult.t) (leftAlign : option bool) (w : World) :
  let a := Note.offset (heap w (VoiceLeadingQuartet.v1n1 (VLQTheoryResult.vlq self))) in
  let b := Note.offset (heap w (VoiceLeadingQuartet.v2n1 (VLQTheoryResult.vlq self))) in
  let c := Note.offset (heap w (VoiceLeadingQuartet.v1n2 (VLQTheoryResult.vlq self))) in
  let d := Note.offset (heap w (VoiceLeadingQuartet.v2n2 (VLQTheoryResult.vlq self))) in
  VLQTheoryResult.offset self leftAlign w =
  (Ok (if default false leftAlign then py_min a [b; c; d] else py_max a [b; c; d]), w).
Proof.
  unfold VLQTheoryResult.offset. destruct (default false leftAlign); reflexivity.
Qed.

(** Claim C6.  For pair and quad results, [offset] returns the largest of the
    constituent notes' offsets, or the smallest when [leftAlign] is true; the
    value returned is the offset of one of the notes, and the call leaves the
    world as it found it. *)
Theorem offset_is_extremum_and_mutates_nothing :
  (∀ (self : IntervalTheoryResult.t) (leftAlign : option bool) (w : World),
     ∃ q, IntervalTheoryResult.offset self leftAlign w = (Ok q, w) ∧
          extremum (default false leftAlign) q
            (offsets w (pair_notes (IntervalTheoryResult.intv self)))) ∧
  (∀ (self : VLQTheoryResult.t) (leftAlign : option bool) (w : World),
     ∃ q, VLQTheoryResult.offset self leftAlign w = (Ok q, w) ∧
          extremum (default false leftAlign) q
            (offsets w (quad_notes (VLQTheoryResult.vlq self)))).
Proof.
  split; intros self leftAlign w.
  - rewrite pair_offset_run. eexists. split; [reflexivity|].
    unfold extremum, offsets, pair_notes. cbn [fmap list_fmap].
    destruct (default false leftAlign); [apply py_min_spec | apply py_max_spec].
  - rewrite quad_offset_run. eexists. split; [reflexivity|].
    unfold extremum, offsets, quad_notes. cbn [fmap list_fmap].
    destruct (default false leftAlign); [apply py_min_spec | apply py_max_spec].
Qed.

(** ** Editorial flags *)

Lemma misc_matches_carries (w : World) (k : string) (v : Value) (r : NoteRef) :
  misc_matches (Note.editorial_misc (heap w r)) k v = true ↔ carries w k v r.
Proof.
  unfold misc_matches, carries. destruct (_ !! k) as [x|].
  - split; [intros H; by exists x | by intros (y & [= ->] & H)].
  - split; [done | by intros (y & [=] & _)].
Qed.

Lemma pair_hasEditorial_run (self : IntervalTheoryResult.t) (k : string)
    (ev : option Value) (w : World) :
  let v := default (VBool true) ev in
  let has r := misc_matches (Note.editorial_misc (heap w r)) k v in
  IntervalTheoryResult.hasEditorial self k ev w =
  (Ok (has (Interval.noteStart (IntervalTheoryResult.intv self))
       || has (Interval.noteEnd (IntervalTheoryResult.intv self))), w).
Proof.
  unfold IntervalTheoryResult.hasEditorial, py_or, misc_is, get_note. run.
  by destruct (misc_matches _ _ _).
Qed.

Lemma quad_hasEditorial_run (self : VLQTheoryResult.t) (k : string)
    (ev : option Value) (w : World) :
  let v := default (VBool true) ev in
  let has r := misc_matches (Note.editorial_misc (heap w r)) k v in
  VLQTheoryResult.hasEditorial self k ev w =
  (Ok (has (VoiceLeadingQuartet.v1n1 (VLQTheoryResult.vlq self))
       || has (VoiceLeadingQuartet.v1n2 (VLQTheoryResult.vlq self))
       || has (VoiceLeadingQuartet.v2n1 (VLQTheoryResult.vlq self))
       || has (VoiceLeadingQuartet.v2n2 (VLQTheoryResult.vlq self))), w).
Proof.
  unfold VLQTheoryResult.hasEditorial, py_or, misc_is, get_note. run.
  repeat (destruct (misc_matches _ _ _); cbn; try reflexivity).
Qed.

(** Claim C7.  For pair and quad results, [hasEditorial] never raises and
    changes nothing, and it returns true exactly when one of the constituent
    notes has an entry under the key in [editorial.misc] whose value equals
    the expected one ([True] when omitted); a note without the key counts as
    not matching. *)
Theorem hasEditorial_iff_some_note_carries :
  (∀ (self : IntervalTheoryResult.t) (k : string) (ev : option Value) (w : World),
     ∃ b : bool,
       IntervalTheoryResult.hasEditorial self k ev w = (Ok b, w) ∧
       (b = true ↔
        ∃ r, r ∈ pair_notes (IntervalTheoryResult.intv self) ∧
             carries w k (default (VBool true) ev) r)) ∧
  (∀ (self : VLQTheoryResult.t) (k : string) (ev : option Value) (w : World),
     ∃ b : bool,
       VLQTheoryResult.hasEditorial self k ev w = (Ok b, w) ∧
       (b = true ↔
        ∃ r, r ∈ quad_notes (VLQTheoryResult.vlq self) ∧
             carries w k (default (VBool true) ev) r)).
Proof.
  split; intros self k ev w.
  - rewrite pair_hasEditorial_run. eexists. split; [reflexivity|].
    rewrite orb_true_iff, !misc_matches_carries. unfold pair_notes. split.
    + intros [H|H]; eexists; (split; [|exact H]); rewrite !elem_of_cons; auto.
    + intros (r & Hr & H). rewrite !elem_of_cons in Hr.
      destruct Hr as [->|[->|Hr]]; [auto | auto | by apply not_elem_of_nil in Hr].
  - rewrite quad_hasEditorial_run. eexists. split; [reflexivity|].
    rewrite !orb_true_iff, !misc_matches_carries. unfold quad_notes. split.
    + intros [[[H|H]|H]|H]; eexists; (split; [|exact H]); rewrite !elem_of_cons; auto.
    + intros (r & Hr & H). rewrite !elem_of_cons in Hr.
      destruct Hr as [->|[->|[->|[->|Hr]]]]; [auto | auto | auto | auto |].
      by apply not_elem_of_nil in Hr.
Qed.

(** ** Groups *)

Import VerticalityNTuplet VerticalityNTupletTheoryResult.

Lemma store_tnls_same (k : Z) (sub : ThreeNoteLinearSegmentTheoryResult.t)
    (g : VerticalityNTuplet.t) :
  tnlsDict g !! k = Some sub → store_tnls k sub g = g.
Proof. destruct g. unfold store_tnls. cbn. intros H. by rewrite insert_id. Qed.

(** Running the sub-finding's [color] leaves the group object as it is and
    acts on the notes only. *)
Lemma color_tnls_run (self : VerticalityNTupletTheoryResult.t) (k : Z) (c : string)
    (sel : option (list Z)) (sub : ThreeNoteLinearSegmentTheoryResult.t) (w : World) :
  tnlsDict (vsnt self) !! k = Some sub →
  color_tnls self k c sel w =
  (Ok self, (ThreeNoteLinearSegmentTheoryResult.color sub (Some c) sel w).2).
Proof.
  intros H. unfold color_tnls, getitem. rewrite H. run.
  rewrite triple_color_run. cbn. rewrite store_tnls_same by done. by destruct self.
Qed.

Lemma color_tnls_missing (self : VerticalityNTupletTheoryResult.t) (k : Z) (c : string)
    (sel : option (list Z)) (w : World) :
  tnlsDict (vsnt self) !! k = None →
  color_tnls self k c sel w = (Raise (KeyError k), w).
Proof. intros H. unfold color_tnls, getitem. by rewrite H. Qed.

Lemma color_partNum_run (self : VerticalityNTupletTheoryResult.t) (co : option string)
    (k : Z) (sel : option (list Z)) (w : World) :
  nTupletNum (vsnt self) = 3 →
  VerticalityNTupletTheoryResult.color self co (Some k) sel w =
  color_tnls self k (default "red"%string co) None (print (color_line self k) w).2.
Proof.
  intros Harity. unfold VerticalityNTupletTheoryResult.color. by rewrite Harity.
Qed.

(** Claim C9.  For a group of arity 2, every call to [color] returns
    normally and leaves the group object and every note as they were,
    whatever the color, part key and selection, and whatever [tnlsDict]
    holds: no sub-finding is looked up or run.  A call with a part key
    only prints its line. *)
Theorem color_on_arity_two_is_noop (self : VerticalityNTupletTheoryResult.t)
    (co : option string) (pk : option Z) (sel : option (list Z)) (w : World) :
  nTupletNum (vsnt self) = 2 →
  VerticalityNTupletTheoryResult.color self co pk sel w =
    (Ok self, match pk with
              | Some k => (print (color_line self k) w).2
              | None => w
              end)
  ∧ heap (VerticalityNTupletTheoryResult.color self co pk sel w).2 = heap w.
Proof.
  intros Harity. unfold VerticalityNTupletTheoryResult.color. rewrite Harity.
  destruct pk as [k|]; [|destruct (partNumIdentified self)]; run; done.
Qed.

(** Claim C10.  For a group of arity 3, [color] with a part key that is not
    a key of [tnlsDict] raises [KeyError] for that key, after printing its
    line and without touching a note. *)
Theorem color_unknown_partKey_raises (self : VerticalityNTupletTheoryResult.t)
    (co : option string) (k : Z) (sel : option (list Z)) (w : World) :
  nTupletNum (vsnt self) = 3 →
  tnlsDict (vsnt self) !! k = None →
  VerticalityNTupletTheoryResult.color self co (Some k) sel w =
    (Raise (KeyError k), (print (color_line self k) w).2)
  ∧ heap (VerticalityNTupletTheoryResult.color self co (Some k) sel w).2 = heap w.
Proof.
  intros Harity Hk. rewrite color_partNum_run by done.
  by rewrite color_tnls_missing.
Qed.

(** ** Columns *)

Section Parts.
Variable f : Note.t → Note.t.
Hypothesis f_idem : ∀ n, f (f n) = f n.
Variable vs : Verticality.t.

(** [for partNum in partList: vs.noteFromPart(partNum).attr = v], when every
    part listed is in the column. *)
Lemma for_parts_marks (pl : list Z) (refs : list NoteRef) :
  Forall2 (λ p r, Verticality.part_note vs p = Some r) pl refs →
  ∀ (ts : list NoteRef) (w0 w : World),
    marks f ts w0 w →
    ∃ w', for_each pl (λ p, r ← Verticality.noteFromPart vs p; modify_note r f) w
            = (Ok (), w')
          ∧ marks f (ts ++ refs) w0 w'.
Proof.
  induction 1 as [|p r pl refs Hp _ IH]; intros ts w0 w Hm.
  - exists w. split; [done|]. by rewrite app_nil_r.
  - cbn [for_each]. unfold Verticality.noteFromPart. rewrite Hp. run.
    destruct (IH (ts ++ [r]) w0 _ (marks_modify f f_idem ts r w0 w Hm))
      as (w' & Hrun & Hm').
    exists w'. split; [exact Hrun|]. by rewrite <- app_assoc in Hm'.
Qed.

(** The same loop when a part listed is not in the column: the lookup
    raises, after the notes of the parts before it were marked. *)
Lemma for_parts_raises (pl1 : list Z) (refs : list NoteRef) (p : Z) (pl2 : list Z) :
  Forall2 (λ p r, Verticality.part_note vs p = Some r) pl1 refs →
  Verticality.part_note vs p = None →
  ∀ (ts : list NoteRef) (w0 w : World),
    marks f ts w0 w →
    ∃ w', for_each (pl1 ++ p :: pl2)
            (λ p, r ← Verticality.noteFromPart vs p; modify_note r f) w
            = (Raise (NotFound p), w')
          ∧ marks f (ts ++ refs) w0 w'.
Proof.
  intros Hall Hp. induction Hall as [|q r pl1 refs Hq _ IH]; intros ts w0 w Hm.
  - exists w. cbn [app for_each]. unfold Verticality.noteFromPart. rewrite Hp. run.
    split; [done|]. by rewrite app_nil_r.
  - cbn [app for_each]. cbn beta. unfold Verticality.noteFromPart. rewrite Hq. run.
    destruct (IH (ts ++ [r]) w0 _ (marks_modify f f_idem ts r w0 w Hm))
      as (w' & Hrun & Hm').
    exists w'. split; [exact Hrun|]. by rewrite <- app_assoc in Hm'.
Qed.
End Parts.

Lemma column_color_run (self : VerticalityTheoryResult.t) (co : option string)
    (partList : option (list Z)) (w : World) :
  let c := default "red"%string co in
  let loop :=
    if py_truthy partList
    then for_each (default [] partList)
           (λ p, r ← Verticality.noteFromPart (VerticalityTheoryResult.vs self) p;
                 modify_note r (Note.with_color c))
    else for_each (Verticality.noteList (VerticalityTheoryResult.vs self))
           (λ r, modify_note r (Note.with_color c)) in
  VerticalityTheoryResult.color self co partList w =
  match loop w with
  | (Ok _, w') => (Ok self, w')
  | (Raise e, w') => (Raise e, w')
  end.
Proof. reflexivity. Qed.

(** Claim C8, as amended.  For a column result, [color] with a part list
    that is not empty colors exactly the notes of the parts listed, when the
    column has them all; when it lacks one, the failed lookup reaches the
    caller as an exception, the notes of the parts listed before it being
    colored already; and [color] with the part list omitted or empty colors
    every note in the column. *)
Theorem column_color_by_parts (self : VerticalityTheoryResult.t) (c : string) (w : World) :
  (∀ (pl : list Z) (refs : list NoteRef),
     pl ≠ [] →
     Forall2 (λ p r, Verticality.part_note (VerticalityTheoryResult.vs self) p = Some r)
       pl refs →
     ∃ w', VerticalityTheoryResult.color self (Some c) (Some pl) w = (Ok self, w') ∧
           marks (Note.with_color c) refs w w') ∧
  (∀ (pl1 : list Z) (p : Z) (pl2 : list Z) (refs : list NoteRef),
     Forall2 (λ p r, Verticality.part_note (VerticalityTheoryResult.vs self) p = Some r)
       pl1 refs →
     Verticality.part_note (VerticalityTheoryResult.vs self) p = None →
     ∃ w', VerticalityTheoryResult.color self (Some c) (Some (pl1 ++ p :: pl2)) w
             = (Raise (NotFound p), w') ∧
           marks (Note.with_color c) refs w w') ∧
  (∀ pl : option (list Z),
     pl = None ∨ pl = Some [] →
     ∃ w', VerticalityTheoryResult.color self (Some c) pl w = (Ok self, w') ∧
           marks (Note.with_color c)
             (Verticality.noteList (VerticalityTheoryResult.vs self)) w w').
Proof.
  split; [|split].
  - intros pl refs Hne Hall. rewrite column_color_run.
    destruct pl as [|p pl]; [done|]. cbv zeta. cbn [py_truthy default from_option id].
    destruct (for_parts_marks _ (with_color_idem c) _ _ _ Hall [] w w
                (marks_refl _ w)) as (w' & Hrun & Hm).
    exists w'. by rewrite Hrun.
  - intros pl1 p pl2 refs Hall Hp. rewrite column_color_run.
    cbv zeta. replace (py_truthy (Some (pl1 ++ p :: pl2))) with true by by destruct pl1.
    cbn [default from_option id].
    destruct (for_parts_raises _ (with_color_idem c) _ _ _ p pl2 Hall Hp [] w w
                (marks_refl _ w)) as (w' & Hrun & Hm).
    exists w'. by rewrite Hrun.
  - intros pl Hpl. rewrite column_color_run.
    cbv zeta. replace (py_truthy pl) with false by by destruct Hpl as [-> | ->].
    cbn [default from_option id].
    destruct (for_refs_marks _ (with_color_idem c)
                (Verticality.noteList (VerticalityTheoryResult.vs self)) [] w w
                (marks_refl _ w)) as (w' & Hrun & Hm).
    exists w'. by rewrite Hrun.
Qed.

(** ** Default selections *)

Lemma singleton_color_marks (self : NoteTheoryResult.t) (co : option string) :
  marks_exactly (NoteTheoryResult.color self co)
    (Note.with_color (default "red"%string co)) [NoteTheoryResult.n self].
Proof.
  intros w. eexists _, _. split; [reflexivity|].
  apply (marks_modify _ (with_color_idem _) [] _ w w), marks_refl.
Qed.

(** Claim C4, as amended.  [color] with the default selection sets the color
    of every constituent note for pair, quad, singleton and column results.
    For a triple result it colors the middle note [n2] only.  For a group
    result it colors only the middle note of the sub-finding of the
    identified part, when the arity is 3 and the identified part is set and
    is a key of [tnlsDict]; with another arity, or no identified part, it
    changes nothing. *)
Theorem default_color_targets :
  (∀ (self : IntervalTheoryResult.t) (co : option string),
     marks_exactly (IntervalTheoryResult.color self co None)
       (Note.with_color (default "red"%string co))
       (pair_positions (IntervalTheoryResult.intv self)).*2) ∧
  (∀ (self : VLQTheoryResult.t) (co : option string),
     marks_exactly (VLQTheoryResult.color self co None)
       (Note.with_color (default "red"%string co))
       (quad_positions (VLQTheoryResult.vlq self)).*2) ∧
  (∀ (self : NoteTheoryResult.t) (co : option string),
     marks_exactly (NoteTheoryResult.color self co)
       (Note.with_color (default "red"%string co)) [NoteTheoryResult.n self]) ∧
  (∀ (self : VerticalityTheoryResult.t) (co : option string),
     marks_exactly (VerticalityTheoryResult.color self co None)
       (Note.with_color (default "red"%string co))
       (Verticality.noteList (VerticalityTheoryResult.vs self))) ∧
  (∀ (self : ThreeNoteLinearSegmentTheoryResult.t) (co : option string),
     marks_exactly (ThreeNoteLinearSegmentTheoryResult.color self co None)
       (Note.with_color (default "red"%string co))
       [ThreeNoteLinearSegment.n2 (ThreeNoteLinearSegmentTheoryResult.tnls self)]) ∧
  (∀ (self : VerticalityNTupletTheoryResult.t) (co : option string) (k : Z)
     (sub : ThreeNoteLinearSegmentTheoryResult.t),
     nTupletNum (vsnt self) = 3 →
     partNumIdentified self = Some k →
     tnlsDict (vsnt self) !! k = Some sub →
     marks_exactly (VerticalityNTupletTheoryResult.color self co None None)
       (Note.with_color (default "red"%string co))
       [ThreeNoteLinearSegment.n2 (ThreeNoteLinearSegmentTheoryResult.tnls sub)]) ∧
  (∀ (self : VerticalityNTupletTheoryResult.t) (co : option string) (w : World),
     nTupletNum (vsnt self) ≠ 3 ∨ partNumIdentified self = None →
     VerticalityNTupletTheoryResult.color self co None None w = (Ok self, w)).
Proof.
  repeat split.
  - intros self co.
    exact (positional_marks _ _ _ [1; 2] (pair_positions (IntervalTheoryResult.intv self))
             (with_color_idem _) (λ w, pair_color_run self co None w)).
  - intros self co.
    exact (positional_marks _ _ _ [1; 2; 3; 4] (quad_positions (VLQTheoryResult.vlq self))
             (with_color_idem _) (λ w, quad_color_run self co None w)).
  - apply singleton_color_marks.
  - intros self co w.
    destruct (for_refs_marks _ (with_color_idem (default "red"%string co))
                (Verticality.noteList (VerticalityTheoryResult.vs self)) [] w w
                (marks_refl _ w)) as (w' & Hrun & Hm).
    exists self, w'. rewrite column_color_run. cbv zeta. cbn [py_truthy]. by rewrite Hrun.
  - intros self co. apply (triple_color_marks self co None).
  - intros self co k sub Harity Hid Hk w.
    destruct (triple_color_marks sub (Some (default "red"%string co)) (Some [2]) w)
      as (x & w' & Hrun & Hm).
    exists self, w'. split; [|exact Hm].
    unfold VerticalityNTupletTheoryResult.color. rewrite Hid, Harity. cbn [Z.eqb Pos.eqb].
    rewrite (color_tnls_run self k _ _ sub) by done. by rewrite Hrun.
  - intros self co w [Harity | Hid]; unfold VerticalityNTupletTheoryResult.color.
    + apply Z.eqb_neq in Harity. rewrite Harity. by destruct (partNumIdentified self).
    + by rewrite Hid.
Qed.

(** ** The group's [color] and the caller's selection *)

(** Claim C1, on the code.  On a group of arity 3 whose [tnlsDict] has key
    0, [color] with part key 0 and the selection [[1; 3]] colors the middle
    note alone, where the sub-finding's own [color] run with that selection
    colors the first and the third: the selection is not passed on.  With
    no selection the call colors the middle note alone as well. *)
Theorem color_partKey_ignores_selection :
  nTupletNum (vsnt sample_group) = 3 ∧
  tnlsDict (vsnt sample_group) !! 0 = Some sample_tnls ∧
  (let h := heap (VerticalityNTupletTheoryResult.color sample_group
                    (Some "red"%string) (Some 0) None fresh_world).2 in
   Note.color (h 1%nat) = None ∧ Note.color (h 2%nat) = Some "red"%string ∧
   Note.color (h 3%nat) = None) ∧
  (let h := heap (VerticalityNTupletTheoryResult.color sample_group
                    (Some "red"%string) (Some 0) (Some [1; 3]) fresh_world).2 in
   Note.color (h 1%nat) = None ∧ Note.color (h 2%nat) = Some "red"%string ∧
   Note.color (h 3%nat) = None) ∧
  (let h := heap (ThreeNoteLinearSegmentTheoryResult.color sample_tnls
                    (Some "red"%string) (Some [1; 3]) fresh_world).2 in
   Note.color (h 1%nat) = Some "red"%string ∧ Note.color (h 2%nat) = None ∧
   Note.color (h 3%nat) = Some "red"%string).
Proof. repeat split; vm_compute; reflexivity. Qed.

Lemma color_on_arity_two_witness :
  nTupletNum (vsnt (VerticalityNTupletTheoryResult.init sample_duplet (Some 0))) = 2 ∧
  heap (VerticalityNTupletTheoryResult.color
          (VerticalityNTupletTheoryResult.init sample_duplet (Some 0))
          (Some "red"%string) (Some 0) (Some [1; 2; 3]) fresh_world).2
  = heap fresh_world.
Proof.
  split; [reflexivity|].
  exact (proj2 (color_on_arity_two_is_noop
                  (VerticalityNTupletTheoryResult.init sample_duplet (Some 0))
                  (Some "red"%string) (Some 0) (Some [1; 2; 3]) fresh_world eq_refl)).
Defined.

Lemma color_unknown_partKey_witness :
  nTupletNum (vsnt sample_group) = 3 ∧
  tnlsDict (vsnt sample_group) !! 7 = None ∧
  (VerticalityNTupletTheoryResult.color sample_group (Some "red"%string) (Some 7) None
     fresh_world).1 = Raise (KeyError 7).
Proof.
  split; [reflexivity|]. split; [reflexivity|].
  rewrite (proj1 (color_unknown_partKey_raises sample_group (Some "red"%string) 7 None
                    fresh_world eq_refl eq_refl)).
  reflexivity.
Defined.

(** ** Defaults that do not color every note *)

(** Claim C4 fails as stated.  On a triple result, [color] with the default
    selection colors the middle note and leaves the first and the third
    uncolored. *)
Lemma triple_default_color_skips_outer_notes :
  let h := heap (ThreeNoteLinearSegmentTheoryResult.color sample_tnls
                   (Some "blue"%string) None fresh_world).2 in
  Note.color (h 1%nat) = None ∧ Note.color (h 2%nat) = Some "blue"%string ∧
  Note.color (h 3%nat) = None.
Proof. repeat split; vm_compute; reflexivity. Qed.

Lemma default_color_targets_witness :
  nTupletNum sample_triplet = 3 ∧
  tnlsDict sample_triplet !! 0 = Some sample_tnls ∧
  marks_exactly
    (VerticalityNTupletTheoryResult.color
       (VerticalityNTupletTheoryResult.init sample_triplet (Some 0))
       (Some "blue"%string) None None)
    (Note.with_color "blue"%string) [2%nat] ∧
  VerticalityNTupletTheoryResult.color sample_group (Some "blue"%string) None None
    fresh_world = (Ok sample_group, fresh_world).
Proof.
  destruct default_color_targets as (_ & _ & _ & _ & _ & Hset & Hunset).
  split; [reflexivity|]. split; [reflexivity|]. split.
  - exact (Hset (VerticalityNTupletTheoryResult.init sample_triplet (Some 0))
             (Some "blue"%string) 0 sample_tnls eq_refl eq_refl eq_refl).
  - apply Hunset. right. reflexivity.
Defined.

(** Claim C8 fails as stated.  On a column result, [color] given the empty
    part list colors every note of the column, where the notes of the parts
    listed are none. *)
Lemma column_color_empty_list_colors_all :
  let h := heap (VerticalityTheoryResult.color (VerticalityTheoryResult.init sample_column)
                   (Some "red"%string) (Some []) fresh_world).2 in
  Note.color (h 10%nat) = Some "red"%string ∧ Note.color (h 11%nat) = Some "red"%string.
Proof. split; vm_compute; reflexivity. Qed.

Lemma column_color_by_parts_witness :
  (∃ w', VerticalityTheoryResult.color (VerticalityTheoryResult.init sample_column)
           (Some "red"%string) (Some [1]) fresh_world
           = (Ok (VerticalityTheoryResult.init sample_column), w') ∧
         marks (Note.with_color "red"%string) [11%nat] fresh_world w') ∧
  (∃ w', VerticalityTheoryResult.color (VerticalityTheoryResult.init sample_column)
           (Some "red"%string) (Some ([0] ++ 5 :: [1])) fresh_world
           = (Raise (NotFound 5), w') ∧
         marks (Note.with_color "red"%string) [10%nat] fresh_world w') ∧
  (∃ w', VerticalityTheoryResult.color (VerticalityTheoryResult.init sample_column)
           (Some "red"%string) None fresh_world
           = (Ok (VerticalityTheoryResult.init sample_column), w') ∧
         marks (Note.with_color "red"%string) [10%nat; 11%nat] fresh_world w').
Proof.
  destruct (column_color_by_parts (VerticalityTheoryResult.init sample_column)
              "red"%string fresh_world) as (Hgiven & Hfails & Hall).
  split; [|split].
  - apply Hgiven; [discriminate|]. repeat constructor.
  - apply Hfails; [|reflexivity]. repeat constructor.
  - apply (Hall None). left. reflexivity.
Defined.

Lemma hasEditorial_witness :
  ∃ b : bool,
    IntervalTheoryResult.hasEditorial sample_interval "flag"%string None flagged_world
      = (Ok b, flagged_world) ∧ b = true.
Proof.
  destruct (proj1 hasEditorial_iff_some_note_carries sample_interval "flag"%string None
              flagged_world) as (b & Hrun & Hiff).
  exists b. split; [exact Hrun|]. apply Hiff. exists 1%nat. split.
  - apply list_elem_of_here.
  - exists (VInt 1). split; reflexivity.
Defined.

(** ** Where the code departs from its documentation *)

(** Claim C3, on the code.  [color] on a triple, a column and a group result
    returns the result object as it was: [currentColor] is still the empty
    string it had at construction, not the color passed.  On a pair result
    the same call records the color. *)
Theorem color_leaves_currentColor_unset :
  (ThreeNoteLinearSegmentTheoryResult.color sample_tnls (Some "blue"%string) None
     fresh_world).1 = Ok sample_tnls ∧
  ThreeNoteLinearSegmentTheoryResult.currentColor sample_tnls = EmptyString ∧
  (VerticalityTheoryResult.color (VerticalityTheoryResult.init sample_column)
     (Some "blue"%string) None fresh_world).1
    = Ok (VerticalityTheoryResult.init sample_column) ∧
  VerticalityTheoryResult.currentColor (VerticalityTheoryResult.init sample_column)
    = EmptyString ∧
  (VerticalityNTupletTheoryResult.color sample_group (Some "blue"%string) (Some 0) None
     fresh_world).1 = Ok sample_group ∧
  VerticalityNTupletTheoryResult.currentColor sample_group = EmptyString ∧
  (IntervalTheoryResult.color sample_interval (Some "blue"%string) (Some [1])
     fresh_world).1
    = Ok (IntervalTheoryResult.set_currentColor "blue"%string sample_interval).
Proof. repeat split; vm_compute; reflexivity. Qed.

(** Claim C2, on the code.  The sample group has the columns [[1; 4]],
    [[2; 5]] and [[3; 6]], part 0 first.  With the plan [{0: [1]}],
    [markNoteEditorial] sets the entry on note 1, the part-0 note of the
    column at index 0, and not on note 4, the note of the part listed.  With
    the default plan [{2: [1]}] it sets the entry on note 3, the part-0 note
    of the column at index 2, and on no other note of the three columns. *)
Theorem markNoteEditorial_marks_part_zero :
  let key := "doubledLeadingTone"%string in
  let run plan :=
    VerticalityNTupletTheoryResult.markNoteEditorial sample_group key (VBool true) plan
      fresh_world in
  let entry plan (r : NoteRef) := Note.editorial_misc (heap (run plan).2 r) !! key in
  py_index (verticalities (vsnt sample_group)) 0 = Some (Verticality.mk [1; 4]%nat) ∧
  py_index (verticalities (vsnt sample_group)) 2 = Some (Verticality.mk [3; 6]%nat) ∧
  (run (Some [(0, [1])])).1 = Ok sample_group ∧
  entry (Some [(0, [1])]) 1%nat = Some (VBool true) ∧
  entry (Some [(0, [1])]) 4%nat = None ∧
  (run None).1 = Ok sample_group ∧
  entry None 3%nat = Some (VBool true) ∧
  (∀ r, r ∈ [1; 2; 4; 5; 6]%nat → entry None r = None).
Proof.
  cbv zeta. repeat (split; [vm_compute; reflexivity|]).
  intros r Hr. rewrite !elem_of_cons in Hr.
  destruct Hr as [->|[->|[->|[->|[->|Hr]]]]];
    [vm_compute; reflexivity .. | by apply not_elem_of_nil in Hr].
Qed.

(** ** Further properties of the positional methods *)

Section MarksCompose.
Variable f : Note.t → Note.t.
Hypothesis f_idem : ∀ n, f (f n) = f n.

(** Marking [t1] and then [t2] marks their union. *)
Lemma marks_trans (t1 t2 : list NoteRef) (w w1 w2 : World) :
  marks f t1 w w1 → marks f t2 w1 w2 → marks f (t1 ++ t2) w w2.
Proof.
  intros [Ho1 Hh1] [Ho2 Hh2]. split; [congruence|]. intros r.
  rewrite Hh2, Hh1.
  repeat case_bool_decide;
    first [ reflexivity | apply f_idem | exfalso; rewrite elem_of_app in *; tauto ].
Qed.

(** Marking the same notes again changes no note. *)
Lemma marks_again (ts : list NoteRef) (w w1 w2 : World) :
  marks f ts w w1 → marks f ts w1 w2 → same_notes w1 w2.
Proof.
  intros [_ Hh1] [_ Hh2] r. rewrite Hh2. case_bool_decide as Hr; [|done].
  rewrite Hh1, bool_decide_eq_true_2 by done. apply f_idem.
Qed.

(** An attribute that [f] keeps is the same in both worlds. *)
Lemma marks_keeps {A : Type} (proj : Note.t → A) (ts : list NoteRef) (w w' : World) :
  (∀ n, proj (f n) = proj n) →
  marks f ts w w' → ∀ r, proj (heap w' r) = proj (heap w r).
Proof. intros Hproj [_ Hh] r. rewrite Hh. by case_bool_decide. Qed.
End MarksCompose.

Lemma py_in_app (x : Z) (l1 l2 : list Z) :
  py_in x (l1 ++ l2) = py_in x l1 || py_in x l2.
Proof. apply existsb_app. Qed.

Lemma elem_of_selected_app (sel1 sel2 : list Z) (ps : positions) (r : NoteRef) :
  r ∈ selected (sel1 ++ sel2) ps ↔ r ∈ selected sel1 ps ++ selected sel2 ps.
Proof.
  rewrite elem_of_app. induction ps as [|[p q] ps IH]; cbn [selected].
  - rewrite elem_of_nil. tauto.
  - rewrite py_in_app.
    destruct (py_in p sel1), (py_in p sel2); cbn [orb];
      rewrite ?elem_of_cons, IH; tauto.
Qed.

Lemma elem_of_selected (sel : list Z) (ps : positions) (r : NoteRef) :
  r ∈ selected sel ps → r ∈ ps.*2.
Proof.
  induction ps as [|[p q] ps IH]; cbn [selected]; [done|].
  rewrite fmap_cons, elem_of_cons. cbn [snd].
  destruct (py_in p sel); [rewrite elem_of_cons|]; tauto.
Qed.

(** The positional methods as marking computations, for any selection
    argument. *)
Lemma pair_color_marks (self : IntervalTheoryResult.t) (co : option string)
    (sel : option (list Z)) (w : World) :
  ∃ w', IntervalTheoryResult.color self co sel w
          = (Ok (IntervalTheoryResult.set_currentColor (default "red"%string co) self), w') ∧
        marks (Note.with_color (default "red"%string co))
          (selected (default [1; 2] sel) (pair_positions (IntervalTheoryResult.intv self)))
          w w'.
Proof.
  destruct (for_positions_marks _ (with_color_idem (default "red"%string co))
              (default [1; 2] sel) (pair_positions (IntervalTheoryResult.intv self))
              [] w w (marks_refl _ w)) as (w' & Hloop & Hm).
  exists w'. split; [|exact Hm]. rewrite pair_color_run. cbv zeta. by rewrite Hloop.
Qed.

Lemma pair_lyric_marks (self : IntervalTheoryResult.t) (v : string)
    (sel : option (list Z)) (w : World) :
  ∃ w', IntervalTheoryResult.lyric self v sel w = (Ok self, w') ∧
        marks (Note.with_lyric v)
          (selected (default [2] sel) (pair_positions (IntervalTheoryResult.intv self)))
          w w'.
Proof.
  destruct (for_positions_marks _ (with_lyric_idem v)
              (default [2] sel) (pair_positions (IntervalTheoryResult.intv self))
              [] w w (marks_refl _ w)) as (w' & Hloop & Hm).
  exists w'. split; [|exact Hm]. rewrite pair_lyric_run. by rewrite Hloop.
Qed.

Lemma quad_color_marks (self : VLQTheoryResult.t) (co : option string)
    (sel : option (list Z)) (w : World) :
  ∃ w', VLQTheoryResult.color self co sel w
          = (Ok (VLQTheoryResult.set_currentColor (default "red"%string co) self), w') ∧
        marks (Note.with_color (default "red"%string co))
          (selected (default [1; 2; 3; 4] sel) (quad_positions (VLQTheoryResult.vlq self)))
          w w'.
Proof.
  destruct (for_positions_marks _ (with_color_idem (default "red"%string co))
              (default [1; 2; 3; 4] sel) (quad_positions (VLQTheoryResult.vlq self))
              [] w w (marks_refl _ w)) as (w' & Hloop & Hm).
  exists w'. split; [|exact Hm]. rewrite quad_color_run. cbv zeta. by rewrite Hloop.
Qed.

Lemma quad_mark_marks (self : VLQTheoryResult.t) (k : string) (v : Value)
    (sel : option (list Z)) (w : World) :
  ∃ w', VLQTheoryResult.markNoteEditorial self k v sel w = (Ok self, w') ∧
        marks (Note.with_misc k v)
          (selected (default [1; 2; 3; 4] sel) (quad_positions (VLQTheoryResult.vlq self)))
          w w'.
Proof.
  destruct (for_positions_marks _ (with_misc_idem k v)
              (default [1; 2; 3; 4] sel) (quad_positions (VLQTheoryResult.vlq self))
              [] w w (marks_refl _ w)) as (w' & Hloop & Hm).
  exists w'. split; [|exact Hm]. rewrite quad_mark_run. by rewrite Hloop.
Qed.

Lemma triple_color_marks_self (self : ThreeNoteLinearSegmentTheoryResult.t)
    (co : option string) (sel : option (list Z)) (w : World) :
  ∃ w', ThreeNoteLinearSegmentTheoryResult.color self co sel w = (Ok self, w') ∧
        marks (Note.with_color (default "red"%string co))
          (selected (default [2] sel)
             (triple_positions (ThreeNoteLinearSegmentTheoryResult.tnls self)))
          w w'.
Proof.
  destruct (for_positions_marks _ (with_color_idem (default "red"%string co))
              (default [2] sel)
              (triple_positions (ThreeNoteLinearSegmentTheoryResult.tnls self))
              [] w w (marks_refl _ w)) as (w' & Hloop & Hm).
  exists w'. split; [|exact Hm]. rewrite triple_color_run. by rewrite Hloop.
Qed.

(** Extra X1.  On pair, quad and singleton results, [color] returns
    normally for every selection, and the object it leaves has
    [currentColor] equal to the color passed (red when omitted) and the same
    text, value and finding as before. *)
Theorem color_records_currentColor :
  (∀ (self : IntervalTheoryResult.t) (co : option string) (sel : option (list Z))
     (w : World),
     ∃ self' w', IntervalTheoryResult.color self co sel w = (Ok self', w') ∧
       IntervalTheoryResult.currentColor self' = default "red"%string co ∧
       IntervalTheoryResult.text self' = IntervalTheoryResult.text self ∧
       IntervalTheoryResult.value self' = IntervalTheoryResult.value self ∧
       IntervalTheoryResult.intv self' = IntervalTheoryResult.intv self) ∧
  (∀ (self : VLQTheoryResult.t) (co : option string) (sel : option (list Z))
     (w : World),
     ∃ self' w', VLQTheoryResult.color self co sel w = (Ok self', w') ∧
       VLQTheoryResult.currentColor self' = default "red"%string co ∧
       VLQTheoryResult.text self' = VLQTheoryResult.text self ∧
       VLQTheoryResult.value self' = VLQTheoryResult.value self ∧
       VLQTheoryResult.vlq self' = VLQTheoryResult.vlq self) ∧
  (∀ (self : NoteTheoryResult.t) (co : option string) (w : World),
     ∃ self' w', NoteTheoryResult.color self co w = (Ok self', w') ∧
       NoteTheoryResult.currentColor self' = default "red"%string co ∧
       NoteTheoryResult.text self' = NoteTheoryResult.text self ∧
       NoteTheoryResult.value self' = NoteTheoryResult.value self ∧
       NoteTheoryResult.n self' = NoteTheoryResult.n self).
Proof.
  split; [|split].
  - intros self co sel w. destruct (pair_color_marks self co sel w) as (w' & Hrun & _).
    by eexists _, w'.
  - intros self co sel w. destruct (quad_color_marks self co sel w) as (w' & Hrun & _).
    by eexists _, w'.
  - intros self co w. by eexists _, _.
Qed.

(** Extra X2.  [lyric] with the selection omitted sets the lyric of the end
    note only: the start note, when it is another object, and every other
    note keep their lyric, and no note's color, editorial entries or offset
    change. *)
Theorem lyric_default_marks_end_note (self : IntervalTheoryResult.t) (v : string) :
  marks_exactly (IntervalTheoryResult.lyric self v None) (Note.with_lyric v)
    [Interval.noteEnd (IntervalTheoryResult.intv self)].
Proof.
  intros w. destruct (pair_lyric_marks self v None w) as (w' & Hrun & Hm).
  by exists self, w'.
Qed.

(** Extra X3.  Every positional method is idempotent: called again with the
    same arguments on what the first call left, it returns the same object
    and changes no note. *)
Theorem positional_methods_idempotent :
  (∀ co sel, idempotent_method (λ self, IntervalTheoryResult.color self co sel)) ∧
  (∀ v sel, idempotent_method (λ self, IntervalTheoryResult.lyric self v sel)) ∧
  (∀ co sel, idempotent_method (λ self, VLQTheoryResult.color self co sel)) ∧
  (∀ k v sel, idempotent_method (λ self, VLQTheoryResult.markNoteEditorial self k v sel)) ∧
  (∀ co sel, idempotent_method (λ self, ThreeNoteLinearSegmentTheoryResult.color self co sel)) ∧
  (∀ co, idempotent_method (λ self, NoteTheoryResult.color self co)).
Proof.
  repeat split; intros; intros self w.
  - destruct (pair_color_marks self co sel w) as (w1 & Hrun1 & Hm1).
    destruct (pair_color_marks (IntervalTheoryResult.set_currentColor
                (default "red"%string co) self) co sel w1) as (w2 & Hrun2 & Hm2).
    eexists _, w1, w2. split; [exact Hrun1|]. split; [exact Hrun2|]. split; [apply Hm2|].
    exact (marks_again _ (with_color_idem _) _ _ _ _ Hm1 Hm2).
  - destruct (pair_lyric_marks self v sel w) as (w1 & Hrun1 & Hm1).
    destruct (pair_lyric_marks self v sel w1) as (w2 & Hrun2 & Hm2).
    eexists _, w1, w2. split; [exact Hrun1|]. split; [exact Hrun2|]. split; [apply Hm2|].
    exact (marks_again _ (with_lyric_idem _) _ _ _ _ Hm1 Hm2).
  - destruct (quad_color_marks self co sel w) as (w1 & Hrun1 & Hm1).
    destruct (quad_color_marks (VLQTheoryResult.set_currentColor
                (default "red"%string co) self) co sel w1) as (w2 & Hrun2 & Hm2).
    eexists _, w1, w2. split; [exact Hrun1|]. split; [exact Hrun2|]. split; [apply Hm2|].
    exact (marks_again _ (with_color_idem _) _ _ _ _ Hm1 Hm2).
  - destruct (quad_mark_marks self k v sel w) as (w1 & Hrun1 & Hm1).
    destruct (quad_mark_marks self k v sel w1) as (w2 & Hrun2 & Hm2).
    eexists _, w1, w2. split; [exact Hrun1|]. split; [exact Hrun2|]. split; [apply Hm2|].
    exact (marks_again _ (with_misc_idem _ _) _ _ _ _ Hm1 Hm2).
  - destruct (triple_color_marks_self self co sel w) as (w1 & Hrun1 & Hm1).
    destruct (triple_color_marks_self self co sel w1) as (w2 & Hrun2 & Hm2).
    eexists _, w1, w2. split; [exact Hrun1|]. split; [exact Hrun2|]. split; [apply Hm2|].
    exact (marks_again _ (with_color_idem _) _ _ _ _ Hm1 Hm2).
  - eexists _, _, _. split; [reflexivity|]. split; [reflexivity|]. split; [reflexivity|].
    intros r. cbn. unfold upd.
    destruct (Nat.eqb_spec r (NoteTheoryResult.n self)) as [->|]; [|done].
    by rewrite Nat.eqb_refl.
Qed.

(** Extra X4.  Two [color] calls on a quad result: afterwards the notes of
    the second selection have the second color, the notes of the first
    selection that the second does not reach keep the first color, every
    other note has the color it had, and [currentColor] is the second color
    alone. *)
Theorem quad_color_last_call_wins (self : VLQTheoryResult.t) (c1 c2 : string)
    (sel1 sel2 : list Z) (w : World) :
  ∃ s1 w1 s2 w2,
    VLQTheoryResult.color self (Some c1) (Some sel1) w = (Ok s1, w1) ∧
    VLQTheoryResult.color s1 (Some c2) (Some sel2) w1 = (Ok s2, w2) ∧
    VLQTheoryResult.currentColor s2 = c2 ∧
    ∀ r, Note.color (heap w2 r) =
         if bool_decide (r ∈ selected sel2 (quad_positions (VLQTheoryResult.vlq self)))
         then Some c2
         else if bool_decide (r ∈ selected sel1 (quad_positions (VLQTheoryResult.vlq self)))
              then Some c1
              else Note.color (heap w r).
Proof.
  destruct (quad_color_marks self (Some c1) (Some sel1) w) as (w1 & Hrun1 & _ & Hh1).
  destruct (quad_color_marks (VLQTheoryResult.set_currentColor c1 self)
              (Some c2) (Some sel2) w1) as (w2 & Hrun2 & _ & Hh2).
  eexists _, w1, _, w2. split; [exact Hrun1|]. split; [exact Hrun2|]. split; [reflexivity|].
  intros r. rewrite (Hh2 r). cbn [default from_option id VLQTheoryResult.vlq
    VLQTheoryResult.set_currentColor].
  case_bool_decide; [done|]. rewrite (Hh1 r). cbn [default from_option id].
  by case_bool_decide.
Qed.

(** Extra X5.  Coloring a pair or a quad result in two calls with the same
    color leaves every note as one call with the two selections joined does,
    whichever of the two calls comes first. *)
Theorem color_in_two_calls_joins_selections :
  (∀ (self : IntervalTheoryResult.t) (c : string) (sel1 sel2 : list Z) (w : World),
     ∃ s w1 w12 w21 w',
       IntervalTheoryResult.color self (Some c) (Some sel1) w = (Ok s, w1) ∧
       IntervalTheoryResult.color s (Some c) (Some sel2) w1 = (Ok s, w12) ∧
       IntervalTheoryResult.color self (Some c) (Some (sel2 ++ sel1)) w = (Ok s, w21) ∧
       IntervalTheoryResult.color self (Some c) (Some (sel1 ++ sel2)) w = (Ok s, w') ∧
       same_notes w' w12 ∧ same_notes w' w21) ∧
  (∀ (self : VLQTheoryResult.t) (c : string) (sel1 sel2 : list Z) (w : World),
     ∃ s w1 w12 w21 w',
       VLQTheoryResult.color self (Some c) (Some sel1) w = (Ok s, w1) ∧
       VLQTheoryResult.color s (Some c) (Some sel2) w1 = (Ok s, w12) ∧
       VLQTheoryResult.color self (Some c) (Some (sel2 ++ sel1)) w = (Ok s, w21) ∧
       VLQTheoryResult.color self (Some c) (Some (sel1 ++ sel2)) w = (Ok s, w') ∧
       same_notes w' w12 ∧ same_notes w' w21).
Proof.
  split; intros self c sel1 sel2 w.
  - destruct (pair_color_marks self (Some c) (Some sel1) w) as (w1 & Hrun1 & Hm1).
    destruct (pair_color_marks (IntervalTheoryResult.set_currentColor c self)
                (Some c) (Some sel2) w1) as (w12 & Hrun2 & Hm2).
    destruct (pair_color_marks self (Some c) (Some (sel2 ++ sel1)) w)
      as (w21 & Hrun21 & _ & Hh21).
    destruct (pair_color_marks self (Some c) (Some (sel1 ++ sel2)) w)
      as (w' & Hrun' & _ & Hh').
    pose proof (marks_trans _ (with_color_idem c) _ _ _ _ _ Hm1 Hm2) as [_ Hh12].
    eexists _, w1, w12, w21, w'.
    split; [exact Hrun1|]. split; [exact Hrun2|]. split; [exact Hrun21|].
    split; [exact Hrun'|]. split;
      intros r; [rewrite (Hh12 r) | rewrite (Hh21 r)]; rewrite (Hh' r);
      apply (f_equal (λ b : bool, if b then _ else _)), bool_decide_ext;
      cbn [default from_option id]; rewrite !elem_of_selected_app, !elem_of_app; tauto.
  - destruct (quad_color_marks self (Some c) (Some sel1) w) as (w1 & Hrun1 & Hm1).
    destruct (quad_color_marks (VLQTheoryResult.set_currentColor c self)
                (Some c) (Some sel2) w1) as (w12 & Hrun2 & Hm2).
    destruct (quad_color_marks self (Some c) (Some (sel2 ++ sel1)) w)
      as (w21 & Hrun21 & _ & Hh21).
    destruct (quad_color_marks self (Some c) (Some (sel1 ++ sel2)) w)
      as (w' & Hrun' & _ & Hh').
    pose proof (marks_trans _ (with_color_idem c) _ _ _ _ _ Hm1 Hm2) as [_ Hh12].
    eexists _, w1, w12, w21, w'.
    split; [exact Hrun1|]. split; [exact Hrun2|]. split; [exact Hrun21|].
    split; [exact Hrun'|]. split;
      intros r; [rewrite (Hh12 r) | rewrite (Hh21 r)]; rewrite (Hh' r);
      apply (f_equal (λ b : bool, if b then _ else _)), bool_decide_ext;
      cbn [default from_option id]; rewrite !elem_of_selected_app, !elem_of_app; tauto.
Qed.

(** ** Editorial entries and offsets under annotation *)

(** Every value but NaN equals itself. *)
Lemma py_eq_refl (v : Value) : v ≠ VNaN → py_eq v v = true.
Proof.
  destruct v as [|b|z|q| |s]; intros Hv; cbn;
    [done | by destruct b | apply Z.eqb_refl | | done | apply String.eqb_refl].
  apply Qeq_bool_iff, Qeq_refl.
Qed.

Lemma py_eq_nan (v : Value) : py_eq VNaN v = false ∧ py_eq v VNaN = false.
Proof. by destruct v. Qed.

Lemma misc_matches_insert (m : gmap string Value) (k : string) (v : Value) :
  misc_matches (<[k := v]> m) k v = py_eq v v.
Proof. unfold misc_matches. by rewrite lookup_insert_eq. Qed.

Lemma misc_matches_insert_ne (m : gmap string Value) (k k' : string) (v x : Value) :
  k ≠ k' → misc_matches (<[k := v]> m) k' x = misc_matches m k' x.
Proof. intros Hne. unfold misc_matches. by rewrite lookup_insert_ne. Qed.

(** What [hasEditorial] and [offset] return depends on the notes of the
    finding only. *)
Lemma pair_hasEditorial_ext (self : IntervalTheoryResult.t) (k : string)
    (ev : option Value) (w w' : World) :
  (∀ r, misc_matches (Note.editorial_misc (heap w' r)) k (default (VBool true) ev)
        = misc_matches (Note.editorial_misc (heap w r)) k (default (VBool true) ev)) →
  (IntervalTheoryResult.hasEditorial self k ev w').1
  = (IntervalTheoryResult.hasEditorial self k ev w).1.
Proof. intros H. rewrite !pair_hasEditorial_run. cbv zeta. cbn [fst]. by rewrite !H. Qed.

Lemma quad_hasEditorial_ext (self : VLQTheoryResult.t) (k : string)
    (ev : option Value) (w w' : World) :
  (∀ r, misc_matches (Note.editorial_misc (heap w' r)) k (default (VBool true) ev)
        = misc_matches (Note.editorial_misc (heap w r)) k (default (VBool true) ev)) →
  (VLQTheoryResult.hasEditorial self k ev w').1
  = (VLQTheoryResult.hasEditorial self k ev w).1.
Proof. intros H. rewrite !quad_hasEditorial_run. cbv zeta. cbn [fst]. by rewrite !H. Qed.

Lemma pair_offset_ext (self : IntervalTheoryResult.t) (la : option bool) (w w' : World) :
  (∀ r, Note.offset (heap w' r) = Note.offset (heap w r)) →
  (IntervalTheoryResult.offset self la w').1 = (IntervalTheoryResult.offset self la w).1.
Proof. intros H. rewrite !pair_offset_run. cbv zeta. cbn [fst]. by rewrite !H. Qed.

Lemma quad_offset_ext (self : VLQTheoryResult.t) (la : option bool) (w w' : World) :
  (∀ r, Note.offset (heap w' r) = Note.offset (heap w r)) →
  (VLQTheoryResult.offset self la w').1 = (VLQTheoryResult.offset self la w).1.
Proof. intros H. rewrite !quad_offset_run. cbv zeta. cbn [fst]. by rewrite !H. Qed.

Lemma quad_has_selected (q : VoiceLeadingQuartet.t) (has : NoteRef → bool) (r : NoteRef) :
  r ∈ (quad_positions q).*2 → has r = true →
  has (VoiceLeadingQuartet.v1n1 q) || has (VoiceLeadingQuartet.v1n2 q)
  || has (VoiceLeadingQuartet.v2n1 q) || has (VoiceLeadingQuartet.v2n2 q) = true.
Proof.
  cbn. rewrite !elem_of_cons, elem_of_nil. rewrite !orb_true_iff.
  intros [->|[->|[->|[->|[]]]]] H; auto.
Qed.

(** Extra X6.  On a quad result, once [markNoteEditorial] has run with a
    value other than NaN and a selection that names one of the positions 1
    to 4 (the default does), [hasEditorial] asked for the same key and value
    answers true, whatever the notes carried before. *)
Theorem quad_mark_then_hasEditorial (self : VLQTheoryResult.t) (k : string) (v : Value)
    (sel : option (list Z)) (w : World) :
  v ≠ VNaN →
  selected (default [1; 2; 3; 4] sel) (quad_positions (VLQTheoryResult.vlq self)) ≠ [] →
  ∃ w', VLQTheoryResult.markNoteEditorial self k v sel w = (Ok self, w') ∧
        VLQTheoryResult.hasEditorial self k (Some v) w' = (Ok true, w').
Proof.
  intros Hv Hsel. destruct (quad_mark_marks self k v sel w) as (w' & Hrun & _ & Hh).
  exists w'. split; [exact Hrun|]. rewrite quad_hasEditorial_run. cbv zeta.
  destruct (selected _ _) as [|r ts] eqn:Hts; [done|].
  assert (r ∈ selected (default [1; 2; 3; 4] sel)
                (quad_positions (VLQTheoryResult.vlq self))) as Hr
    by (rewrite Hts; apply list_elem_of_here).
  f_equal. f_equal.
  apply (quad_has_selected _ (λ r, misc_matches (Note.editorial_misc (heap w' r)) k v) r).
  - apply (elem_of_selected _ _ _ Hr).
  - rewrite (Hh r), bool_decide_eq_true_2 by apply list_elem_of_here.
    cbn. rewrite misc_matches_insert. by apply py_eq_refl.
Qed.

(** Extra X7.  What [hasEditorial] answers for a key is not changed by
    [color] or [lyric], nor by [markNoteEditorial] run for another key. *)
Theorem hasEditorial_unchanged_by_other_annotations :
  (∀ (self : IntervalTheoryResult.t) (co : option string) (sel : option (list Z))
     (k : string) (ev : option Value) (w : World),
     ∃ self' w', IntervalTheoryResult.color self co sel w = (Ok self', w') ∧
       (IntervalTheoryResult.hasEditorial self' k ev w').1
       = (IntervalTheoryResult.hasEditorial self k ev w).1) ∧
  (∀ (self : IntervalTheoryResult.t) (v : string) (sel : option (list Z))
     (k : string) (ev : option Value) (w : World),
     ∃ self' w', IntervalTheoryResult.lyric self v sel w = (Ok self', w') ∧
       (IntervalTheoryResult.hasEditorial self' k ev w').1
       = (IntervalTheoryResult.hasEditorial self k ev w).1) ∧
  (∀ (self : VLQTheoryResult.t) (co : option string) (sel : option (list Z))
     (k : string) (ev : option Value) (w : World),
     ∃ self' w', VLQTheoryResult.color self co sel w = (Ok self', w') ∧
       (VLQTheoryResult.hasEditorial self' k ev w').1
       = (VLQTheoryResult.hasEditorial self k ev w).1) ∧
  (∀ (self : VLQTheoryResult.t) (k' : string) (v : Value) (sel : option (list Z))
     (k : string) (ev : option Value) (w : World),
     k' ≠ k →
     ∃ self' w', VLQTheoryResult.markNoteEditorial self k' v sel w = (Ok self', w') ∧
       (VLQTheoryResult.hasEditorial self' k ev w').1
       = (VLQTheoryResult.hasEditorial self k ev w).1).
Proof.
  split; [|split; [|split]].
  - intros self co sel k ev w.
    destruct (pair_color_marks self co sel w) as (w' & Hrun & Hm).
    eexists _, w'. split; [exact Hrun|].
    apply (pair_hasEditorial_ext self k ev w w').
    by refine (marks_keeps _ (λ n, misc_matches (Note.editorial_misc n) k _) _ _ _ _ Hm).
  - intros self v sel k ev w.
    destruct (pair_lyric_marks self v sel w) as (w' & Hrun & Hm).
    eexists _, w'. split; [exact Hrun|].
    apply (pair_hasEditorial_ext self k ev w w').
    by refine (marks_keeps _ (λ n, misc_matches (Note.editorial_misc n) k _) _ _ _ _ Hm).
  - intros self co sel k ev w.
    destruct (quad_color_marks self co sel w) as (w' & Hrun & Hm).
    eexists _, w'. split; [exact Hrun|].
    apply (quad_hasEditorial_ext self k ev w w').
    by refine (marks_keeps _ (λ n, misc_matches (Note.editorial_misc n) k _) _ _ _ _ Hm).
  - intros self k' v sel k ev w Hne.
    destruct (quad_mark_marks self k' v sel w) as (w' & Hrun & Hm).
    eexists _, w'. split; [exact Hrun|].
    apply (quad_hasEditorial_ext self k ev w w').
    refine (marks_keeps _ (λ n, misc_matches (Note.editorial_misc n) k _) _ _ _ _ Hm).
    intros n. by apply misc_matches_insert_ne.
Qed.

(** Extra X8.  No annotation moves a finding: what [offset] returns for a
    pair or a quad result is the same after [color], [lyric] or
    [markNoteEditorial] as before, for either alignment. *)
Theorem offset_unchanged_by_annotations :
  (∀ (self : IntervalTheoryResult.t) (co : option string) (sel : option (list Z))
     (la : option bool) (w : World),
     ∃ self' w', IntervalTheoryResult.color self co sel w = (Ok self', w') ∧
       (IntervalTheoryResult.offset self' la w').1
       = (IntervalTheoryResult.offset self la w).1) ∧
  (∀ (self : IntervalTheoryResult.t) (v : string) (sel : option (list Z))
     (la : option bool) (w : World),
     ∃ self' w', IntervalTheoryResult.lyric self v sel w = (Ok self', w') ∧
       (IntervalTheoryResult.offset self' la w').1
       = (IntervalTheoryResult.offset self la w).1) ∧
  (∀ (self : VLQTheoryResult.t) (co : option string) (sel : option (list Z))
     (la : option bool) (w : World),
     ∃ self' w', VLQTheoryResult.color self co sel w = (Ok self', w') ∧
       (VLQTheoryResult.offset self' la w').1 = (VLQTheoryResult.offset self la w).1) ∧
  (∀ (self : VLQTheoryResult.t) (k : string) (v : Value) (sel : option (list Z))
     (la : option bool) (w : World),
     ∃ self' w', VLQTheoryResult.markNoteEditorial self k v sel w = (Ok self', w') ∧
       (VLQTheoryResult.offset self' la w').1 = (VLQTheoryResult.offset self la w).1).
Proof.
  split; [|split; [|split]].
  - intros self co sel la w.
    destruct (pair_color_marks self co sel w) as (w' & Hrun & Hm).
    eexists _, w'. split; [exact Hrun|]. apply (pair_offset_ext self la w w').
    by refine (marks_keeps _ Note.offset _ _ _ _ Hm).
  - intros self v sel la w.
    destruct (pair_lyric_marks self v sel w) as (w' & Hrun & Hm).
    eexists _, w'. split; [exact Hrun|]. apply (pair_offset_ext self la w w').
    by refine (marks_keeps _ Note.offset _ _ _ _ Hm).
  - intros self co sel la w.
    destruct (quad_color_marks self co sel w) as (w' & Hrun & Hm).
    eexists _, w'. split; [exact Hrun|]. apply (quad_offset_ext self la w w').
    by refine (marks_keeps _ Note.offset _ _ _ _ Hm).
  - intros self k v sel la w.
    destruct (quad_mark_marks self k v sel w) as (w' & Hrun & Hm).
    eexists _, w'. split; [exact Hrun|]. apply (quad_offset_ext self la w w').
    by refine (marks_keeps _ Note.offset _ _ _ _ Hm).
Qed.

(** Extra X9.  The left-aligned offset of a pair or a quad result is never
    after the default one. *)
Theorem offset_leftAlign_not_after_default :
  (∀ (self : IntervalTheoryResult.t) (w : World),
     ∃ lo hi, IntervalTheoryResult.offset self (Some true) w = (Ok lo, w) ∧
              IntervalTheoryResult.offset self None w = (Ok hi, w) ∧ (lo <= hi)%Q) ∧
  (∀ (self : VLQTheoryResult.t) (w : World),
     ∃ lo hi, VLQTheoryResult.offset self (Some true) w = (Ok lo, w) ∧
              VLQTheoryResult.offset self None w = (Ok hi, w) ∧ (lo <= hi)%Q).
Proof.
  split; intros self w.
  - rewrite !pair_offset_run. eexists _, _. split; [reflexivity|]. split; [reflexivity|].
    cbn [default from_option id].
    destruct (py_min_spec [Note.offset (heap w (Interval.noteEnd (IntervalTheoryResult.intv self)))]
                (Note.offset (heap w (Interval.noteStart (IntervalTheoryResult.intv self)))))
      as [_ Hlo].
    destruct (py_max_spec [Note.offset (heap w (Interval.noteEnd (IntervalTheoryResult.intv self)))]
                (Note.offset (heap w (Interval.noteStart (IntervalTheoryResult.intv self)))))
      as [_ Hhi].
    eapply Qle_trans; [apply Hlo | apply Hhi]; apply list_elem_of_here.
  - rewrite !quad_offset_run. eexists _, _. split; [reflexivity|]. split; [reflexivity|].
    cbn [default from_option id].
    match goal with
    | |- (py_min ?a ?l <= _)%Q =>
        destruct (py_min_spec l a) as [_ Hlo]; destruct (py_max_spec l a) as [_ Hhi]
    end.
    eapply Qle_trans; [apply Hlo | apply Hhi]; apply list_elem_of_here.
Qed.

(** ** Further properties of the group result *)

(** Extra X10.  For a group whose arity is not 3, every call to [color]
    returns normally and leaves the group object and every note as they
    were, whatever [tnlsDict] and the identified part are; a call with a part
    key only prints its line. *)
Theorem color_off_arity_three_is_noop (self : VerticalityNTupletTheoryResult.t)
    (co : option string) (pk : option Z) (sel : option (list Z)) (w : World) :
  nTupletNum (vsnt self) ≠ 3 →
  VerticalityNTupletTheoryResult.color self co pk sel w =
    (Ok self, match pk with
              | Some k => (print (color_line self k) w).2
              | None => w
              end)
  ∧ heap (VerticalityNTupletTheoryResult.color self co pk sel w).2 = heap w.
Proof.
  intros Harity. apply Z.eqb_neq in Harity.
  unfold VerticalityNTupletTheoryResult.color. rewrite Harity.
  destruct pk as [k|]; [|destruct (partNumIdentified self)]; run; done.
Qed.

(** Extra X11.  For a group of arity 3 called without a part key, [color]
    goes by the identified part: when that part is a key of [tnlsDict], the
    middle note of its sub-finding gets the color and no other note changes,
    whatever selection the caller passes, and nothing is printed. *)
Theorem color_by_identified_part (self : VerticalityNTupletTheoryResult.t)
    (co : option string) (sel : option (list Z)) (k : Z)
    (sub : ThreeNoteLinearSegmentTheoryResult.t) (w : World) :
  nTupletNum (vsnt self) = 3 →
  partNumIdentified self = Some k →
  tnlsDict (vsnt self) !! k = Some sub →
  ∃ w', VerticalityNTupletTheoryResult.color self co None sel w = (Ok self, w') ∧
        marks (Note.with_color (default "red"%string co))
          [ThreeNoteLinearSegment.n2 (ThreeNoteLinearSegmentTheoryResult.tnls sub)] w w'.
Proof.
  intros Harity Hid Hk.
  destruct (triple_color_marks_self sub (Some (default "red"%string co)) (Some [2]) w)
    as (w' & Hrun & Hm).
  exists w'. split; [|exact Hm].
  unfold VerticalityNTupletTheoryResult.color. rewrite Hid, Harity. cbn [Z.eqb Pos.eqb].
  rewrite (color_tnls_run self k _ _ sub) by done. by rewrite Hrun.
Qed.

(** Extra X12.  For a group of arity 3 called without a part key, an
    identified part that is not a key of [tnlsDict] makes [color] raise
    [KeyError] for it, with nothing printed and no note changed. *)
Theorem color_by_unknown_identified_part_raises (self : VerticalityNTupletTheoryResult.t)
    (co : option string) (sel : option (list Z)) (k : Z) (w : World) :
  nTupletNum (vsnt self) = 3 →
  partNumIdentified self = Some k →
  tnlsDict (vsnt self) !! k = None →
  VerticalityNTupletTheoryResult.color self co None sel w = (Raise (KeyError k), w).
Proof.
  intros Harity Hid Hk.
  unfold VerticalityNTupletTheoryResult.color. rewrite Hid, Harity. cbn [Z.eqb Pos.eqb].
  by rewrite color_tnls_missing.
Qed.

Lemma color_tnls_stdout (self : VerticalityNTupletTheoryResult.t) (k : Z) (c : string)
    (sel : option (list Z)) (w : World) :
  stdout (color_tnls self k c sel w).2 = stdout w.
Proof.
  destruct (tnlsDict (vsnt self) !! k) as [sub|] eqn:Hk.
  - rewrite (color_tnls_run self k c sel sub) by done.
    by destruct (triple_color_marks_self sub (Some c) sel w) as (w' & -> & Hout & _).
  - by rewrite color_tnls_missing.
Qed.

(** Extra X13.  The group's [color] writes to standard output exactly when
    it is given a part key: it then prints one line, made of the key, the
    identified part, the arity and the keys of [tnlsDict], before anything
    else, whether the call goes on to color a note, to raise or to do
    nothing; without a part key it prints nothing. *)
Theorem color_prints_iff_partKey (self : VerticalityNTupletTheoryResult.t)
    (co : option string) (sel : option (list Z)) (w : World) :
  (∀ k, stdout (VerticalityNTupletTheoryResult.color self co (Some k) sel w).2
        = stdout w ++ [color_line self k]) ∧
  stdout (VerticalityNTupletTheoryResult.color self co None sel w).2 = stdout w.
Proof.
  split; [intros k|]; unfold VerticalityNTupletTheoryResult.color.
  - destruct (nTupletNum (vsnt self) =? 3) eqn:Harity.
    + change (stdout (color_tnls self k (default "red"%string co) None
                        (print (color_line self k) w).2).2 = stdout w ++ [color_line self k]).
      by rewrite color_tnls_stdout.
    + reflexivity.
  - destruct (partNumIdentified self) as [i|]; [|done].
    destruct (nTupletNum (vsnt self) =? 3); [|done]. apply color_tnls_stdout.
Qed.

(** ** The group's editorial marking *)

Lemma for_each_app {A : Type} (l1 l2 : list A) (body : A → M unit) (w : World) :
  for_each (l1 ++ l2) body w =
  match for_each l1 body w with
  | (Ok _, w') => for_each l2 body w'
  | (Raise e, w') => (Raise e, w')
  end.
Proof.
  revert w. induction l1 as [|a l1 IH]; intros w; [done|].
  cbn [app for_each]. unfold mbind, M_bind.
  destruct (body a w) as [[[]|e] w1]; [apply IH | done].
Qed.

Lemma for_each_ext {A : Type} (l : list A) (body body' : A → M unit) :
  (∀ a w, body a w = body' a w) → ∀ w, for_each l body w = for_each l body' w.
Proof.
  intros Hext. induction l as [|a l IH]; intros w; [done|].
  cbn [for_each]. unfold mbind, M_bind. rewrite Hext.
  destruct (body' a w) as [[[]|e] w1]; [apply IH | done].
Qed.

(** The inner loop does the same thing once for every element of the
    list, whatever the elements are. *)
Lemma for_each_const {A : Type} (l : list A) (x : Z) (body : Z → M unit) (w : World) :
  for_each l (λ _, body x) w = for_each (replicate (length l) x) body w.
Proof.
  revert w. induction l as [|a l IH]; intros w; [done|].
  cbn [length replicate for_each]. unfold mbind, M_bind.
  destruct (body x w) as [[[]|e] w1]; [apply IH | done].
Qed.

(** The two nested loops visit the columns of [plan_visits] in order. *)
Lemma for_plan_visits (plan : list (Z * list Z)) (body : Z → M unit) (w : World) :
  for_each plan (λ '(vsNum, partNumList), for_each partNumList (λ _, body vsNum)) w
  = for_each (plan_visits plan) body w.
Proof.
  revert w. induction plan as [|[vsNum pl] plan IH]; intros w; [done|].
  cbn [for_each plan_visits]. rewrite for_each_app. unfold mbind, M_bind.
  rewrite for_each_const.
  destruct (for_each (replicate (length pl) vsNum) body w) as [[[]|e] w1]; [apply IH | done].
Qed.

(** One visit: the part-0 note of the column is marked, or the lookup
    raises. *)
Lemma mark_visit (g : VerticalityNTuplet.t) (k : string) (v : Value) (vsNum : Z) (w : World) :
  (c ← verticality_at g vsNum;
   r ← Verticality.getObjectsByPart c 0;
   set_misc r k v) w
  = match mark_target g vsNum with
    | Some r => modify_note r (Note.with_misc k v) w
    | None => (Raise (mark_error g vsNum), w)
    end.
Proof.
  unfold verticality_at, mark_target, mark_error, Verticality.getObjectsByPart,
    Verticality.noteFromPart.
  destruct (py_index (verticalities g) vsNum) as [c|]; [|done].
  unfold mbind, M_bind, mret, M_ret. by destruct (Verticality.part_note c 0).
Qed.

Lemma group_mark_run (self : VerticalityNTupletTheoryResult.t) (k : string) (v : Value)
    (plan : option (list (Z * list Z))) (w : World) :
  VerticalityNTupletTheoryResult.markNoteEditorial self k v plan w =
  match for_each (plan_visits (default [(2, [1])] plan))
          (λ vsNum w, match mark_target (vsnt self) vsNum with
                      | Some r => modify_note r (Note.with_misc k v) w
                      | None => (Raise (mark_error (vsnt self) vsNum), w)
                      end) w with
  | (Ok _, w') => (Ok self, w')
  | (Raise e, w') => (Raise e, w')
  end.
Proof.
  unfold VerticalityNTupletTheoryResult.markNoteEditorial.
  rewrite <- (for_each_ext _ _ _ (mark_visit (vsnt self) k v)).
  rewrite <- for_plan_visits. reflexivity.
Qed.

Section Visits.
Variable f : Note.t → Note.t.
Hypothesis f_idem : ∀ n, f (f n) = f n.
Variables (look : Z → option NoteRef) (err : Z → exn).

Let visit : Z → M unit := λ x w,
  match look x with
  | Some r => modify_note r f w
  | None => (Raise (err x), w)
  end.

Lemma for_visits_marks (xs : list Z) (refs : list NoteRef) :
  Forall2 (λ x r, look x = Some r) xs refs →
  ∀ (ts : list NoteRef) (w0 w : World),
    marks f ts w0 w →
    ∃ w', for_each xs visit w = (Ok (), w') ∧ marks f (ts ++ refs) w0 w'.
Proof.
  induction 1 as [|x r xs refs Hx _ IH]; intros ts w0 w Hm.
  - exists w. split; [done|]. by rewrite app_nil_r.
  - cbn [for_each]. unfold mbind, M_bind, visit at 1. rewrite Hx. cbn.
    destruct (IH (ts ++ [r]) w0 _ (marks_modify f f_idem ts r w0 w Hm))
      as (w' & Hrun & Hm').
    exists w'. split; [exact Hrun|]. by rewrite <- app_assoc in Hm'.
Qed.

Lemma for_visits_raises (xs1 : list Z) (refs : list NoteRef) (x : Z) (xs2 : list Z) :
  Forall2 (λ x r, look x = Some r) xs1 refs →
  look x = None →
  ∀ (ts : list NoteRef) (w0 w : World),
    marks f ts w0 w →
    ∃ w', for_each (xs1 ++ x :: xs2) visit w = (Raise (err x), w')
          ∧ marks f (ts ++ refs) w0 w'.
Proof.
  intros Hall Hx. induction Hall as [|y r xs1 refs Hy _ IH]; intros ts w0 w Hm.
  - exists w. cbn [app for_each]. unfold mbind, M_bind, visit at 1. rewrite Hx.
    split; [done|]. by rewrite app_nil_r.
  - cbn [app for_each]. unfold mbind, M_bind, visit at 1. rewrite Hy. cbn.
    destruct (IH (ts ++ [r]) w0 _ (marks_modify f f_idem ts r w0 w Hm))
      as (w' & Hrun & Hm').
    exists w'. split; [exact Hrun|]. by rewrite <- app_assoc in Hm'.
Qed.
End Visits.

(** Extra X14.  [markNoteEditorial] on a group visits the column at each
    index of the plan once for every element of that index's list, and sets
    the entry on the part-0 note of the column each time.  When every visit
    finds its column and a part-0 note in it, the call returns normally and
    has set the entry on exactly those notes; no other note and no other
    attribute changes. *)
Theorem group_mark_marks_part_zero_notes (self : VerticalityNTupletTheoryResult.t)
    (k : string) (v : Value) (plan : option (list (Z * list Z)))
    (refs : list NoteRef) (w : World) :
  Forall2 (λ vsNum r, mark_target (vsnt self) vsNum = Some r)
    (plan_visits (default [(2, [1])] plan)) refs →
  ∃ w', VerticalityNTupletTheoryResult.markNoteEditorial self k v plan w = (Ok self, w') ∧
        marks (Note.with_misc k v) refs w w'.
Proof.
  intros Hall. rewrite group_mark_run.
  destruct (for_visits_marks _ (with_misc_idem k v) _ (mark_error (vsnt self)) _ _ Hall
              [] w w (marks_refl _ w)) as (w' & Hrun & Hm).
  exists w'. by rewrite Hrun.
Qed.

(** Extra X15.  When a visit of [markNoteEditorial] fails, because the index
    is outside the list of columns ([IndexError]) or the column has no part-0
    note, the exception reaches the caller and the entries set by the visits
    before it stay set. *)
Theorem group_mark_raises_after_partial_marks (self : VerticalityNTupletTheoryResult.t)
    (k : string) (v : Value) (plan : option (list (Z * list Z)))
    (before : list Z) (vsNum : Z) (after : list Z) (refs : list NoteRef) (w : World) :
  plan_visits (default [(2, [1])] plan) = before ++ vsNum :: after →
  Forall2 (λ vsNum r, mark_target (vsnt self) vsNum = Some r) before refs →
  mark_target (vsnt self) vsNum = None →
  ∃ w', VerticalityNTupletTheoryResult.markNoteEditorial self k v plan w
          = (Raise (mark_error (vsnt self) vsNum), w') ∧
        marks (Note.with_misc k v) refs w w'.
Proof.
  intros Hplan Hall Hx. rewrite group_mark_run, Hplan.
  destruct (for_visits_raises _ (with_misc_idem k v) _ (mark_error (vsnt self)) _ _ _ after
              Hall Hx [] w w (marks_refl _ w)) as (w' & Hrun & Hm).
  exists w'. by rewrite Hrun.
Qed.

Lemma plan_visits_empty_lists (plan : list (Z * list Z)) :
  Forall (λ e, e.2 = []) plan → plan_visits plan = [].
Proof.
  induction 1 as [|[vsNum pl] plan Hpl _ IH]; [done|].
  cbn in Hpl. subst pl. exact IH.
Qed.

(** Extra X16.  An entry of the plan whose list is empty is never looked
    up: with a plan of such entries only, [markNoteEditorial] returns
    normally and changes nothing, even when the indices are outside the
    list of columns. *)
Theorem group_mark_skips_empty_lists (self : VerticalityNTupletTheoryResult.t)
    (k : string) (v : Value) (plan : list (Z * list Z)) (w : World) :
  Forall (λ e, e.2 = []) plan →
  VerticalityNTupletTheoryResult.markNoteEditorial self k v (Some plan) w = (Ok self, w).
Proof.
  intros Hplan. rewrite group_mark_run. cbn [default from_option id].
  by rewrite (plan_visits_empty_lists plan Hplan).
Qed.

Lemma plan_visits_same_shape (plan1 plan2 : list (Z * list Z)) :
  Forall2 (λ e1 e2, e1.1 = e2.1 ∧ length e1.2 = length e2.2) plan1 plan2 →
  plan_visits plan1 = plan_visits plan2.
Proof.
  induction 1 as [|[x1 l1] [x2 l2] plan1 plan2 [Hx Hl] _ IH]; [done|].
  cbn in Hx, Hl. cbn [plan_visits]. by rewrite Hx, Hl, IH.
Qed.

(** Extra X17.  The part numbers listed in the plan have no influence on
    [markNoteEditorial]: two plans with the same indices in the same order
    and lists of the same lengths give the same outcome and the same
    world. *)
Theorem group_mark_ignores_part_numbers (self : VerticalityNTupletTheoryResult.t)
    (k : string) (v : Value) (plan1 plan2 : list (Z * list Z)) (w : World) :
  Forall2 (λ e1 e2, e1.1 = e2.1 ∧ length e1.2 = length e2.2) plan1 plan2 →
  VerticalityNTupletTheoryResult.markNoteEditorial self k v (Some plan1) w
  = VerticalityNTupletTheoryResult.markNoteEditorial self k v (Some plan2) w.
Proof.
  intros Hshape. rewrite !group_mark_run. cbn [default from_option id].
  by rewrite (plan_visits_same_shape plan1 plan2 Hshape).
Qed.

(** ** Instances of the properties above *)

Lemma quad_mark_then_hasEditorial_witness :
  VBool true ≠ VNaN ∧
  selected [4] (quad_positions (VLQTheoryResult.vlq sample_quad)) ≠ [] ∧
  ∃ w', VLQTheoryResult.markNoteEditorial
          sample_quad
          "parallelFifth"%string (VBool true) (Some [4]) fresh_world
          = (Ok sample_quad, w') ∧
        VLQTheoryResult.hasEditorial
          sample_quad
          "parallelFifth"%string (Some (VBool true)) w' = (Ok true, w').
Proof.
  split; [discriminate|]. split; [discriminate|].
  apply (quad_mark_then_hasEditorial
           sample_quad
           "parallelFifth"%string (VBool true) (Some [4]) fresh_world);
    discriminate.
Defined.

Lemma hasEditorial_unchanged_witness :
  "parallelFifth"%string ≠ "flag"%string ∧
  ∃ self' w',
    VLQTheoryResult.markNoteEditorial
      sample_quad
      "parallelFifth"%string (VBool true) None flagged_world = (Ok self', w') ∧
    (VLQTheoryResult.hasEditorial self' "flag"%string None w').1
    = (VLQTheoryResult.hasEditorial
         sample_quad
         "flag"%string None flagged_world).1.
Proof.
  assert ("parallelFifth"%string ≠ "flag"%string) as Hne by discriminate.
  split; [exact Hne|].
  destruct hasEditorial_unchanged_by_other_annotations as (_ & _ & _ & Hmark).
  exact (Hmark sample_quad
           "parallelFifth"%string (VBool true) None "flag"%string None flagged_world Hne).
Defined.

Lemma color_off_arity_three_witness :
  nTupletNum (VerticalityNTuplet.mk 4 ∅ []) ≠ 3 ∧
  heap (VerticalityNTupletTheoryResult.color
          (VerticalityNTupletTheoryResult.init (VerticalityNTuplet.mk 4 ∅ []) (Some 0))
          None (Some 0) None fresh_world).2 = heap fresh_world.
Proof.
  assert (nTupletNum (VerticalityNTuplet.mk 4 ∅ []) ≠ 3) as Hne by discriminate.
  split; [exact Hne|].
  exact (proj2 (color_off_arity_three_is_noop
                  (VerticalityNTupletTheoryResult.init (VerticalityNTuplet.mk 4 ∅ []) (Some 0))
                  None (Some 0) None fresh_world Hne)).
Defined.

Lemma color_by_identified_part_witness :
  ∃ w', VerticalityNTupletTheoryResult.color
          (VerticalityNTupletTheoryResult.init sample_triplet (Some 0))
          (Some "blue"%string) None (Some [1; 3]) fresh_world
          = (Ok (VerticalityNTupletTheoryResult.init sample_triplet (Some 0)), w') ∧
        marks (Note.with_color "blue"%string) [2%nat] fresh_world w'.
Proof.
  exact (color_by_identified_part
           (VerticalityNTupletTheoryResult.init sample_triplet (Some 0))
           (Some "blue"%string) (Some [1; 3]) 0 sample_tnls fresh_world
           eq_refl eq_refl eq_refl).
Defined.

Lemma color_by_unknown_identified_part_witness :
  VerticalityNTupletTheoryResult.color
    (VerticalityNTupletTheoryResult.init sample_triplet (Some 9))
    None None None fresh_world = (Raise (KeyError 9), fresh_world).
Proof.
  exact (color_by_unknown_identified_part_raises
           (VerticalityNTupletTheoryResult.init sample_triplet (Some 9))
           None None 9 fresh_world eq_refl eq_refl eq_refl).
Defined.

Lemma group_mark_marks_part_zero_notes_witness :
  ∃ w', VerticalityNTupletTheoryResult.markNoteEditorial sample_group
          "doubledLeadingTone"%string (VBool true) (Some [(-1, [0; 1]); (0, [7])])
          fresh_world = (Ok sample_group, w') ∧
        marks (Note.with_misc "doubledLeadingTone"%string (VBool true))
          [3; 3; 1]%nat fresh_world w'.
Proof.
  apply (group_mark_marks_part_zero_notes sample_group "doubledLeadingTone"%string
           (VBool true) (Some [(-1, [0; 1]); (0, [7])]) [3; 3; 1]%nat fresh_world).
  repeat constructor.
Defined.

Lemma group_mark_raises_witness :
  ∃ w', VerticalityNTupletTheoryResult.markNoteEditorial sample_group
          "doubledLeadingTone"%string (VBool true) (Some [(1, [0]); (3, [0]); (0, [0])])
          fresh_world = (Raise (IndexError 3), w') ∧
        marks (Note.with_misc "doubledLeadingTone"%string (VBool true))
          [2%nat] fresh_world w'.
Proof.
  apply (group_mark_raises_after_partial_marks sample_group "doubledLeadingTone"%string
           (VBool true) (Some [(1, [0]); (3, [0]); (0, [0])]) [1] 3 [0] [2%nat] fresh_world).
  - reflexivity.
  - repeat constructor.
  - reflexivity.
Defined.

Lemma group_mark_skips_empty_lists_witness :
  VerticalityNTupletTheoryResult.markNoteEditorial sample_group
    "doubledLeadingTone"%string (VBool true) (Some [(99, [])]) fresh_world
  = (Ok sample_group, fresh_world).
Proof.
  apply (group_mark_skips_empty_lists sample_group "doubledLeadingTone"%string
           (VBool true) [(99, [])] fresh_world).
  repeat constructor.
Defined.

Lemma group_mark_ignores_part_numbers_witness :
  VerticalityNTupletTheoryResult.markNoteEditorial sample_group
    "doubledLeadingTone"%string (VBool true) (Some [(2, [1])]) fresh_world
  = VerticalityNTupletTheoryResult.markNoteEditorial sample_group
      "doubledLeadingTone"%string (VBool true) (Some [(2, [0])]) fresh_world.
Proof.
  apply (group_mark_ignores_part_numbers sample_group "doubledLeadingTone"%string
           (VBool true) [(2, [1])] [(2, [0])] fresh_world).
  repeat constructor.
Defined.

(** ** Findings that share a note *)

(** Extra X18.  A quad result does not own its notes, and two of its
    positions may hold the same note object, as the two ends of a held voice
    do.  Then selecting either position colors the note at both: [color] by
    position 1 and [color] by position 2 leave the same notes, and the note
    at the position not selected has the color. *)
Theorem quad_color_reaches_shared_note (self : VLQTheoryResult.t) (c : string) (w : World) :
  VoiceLeadingQuartet.v1n1 (VLQTheoryResult.vlq self)
    = VoiceLeadingQuartet.v1n2 (VLQTheoryResult.vlq self) →
  ∃ s w1 w2,
    VLQTheoryResult.color self (Some c) (Some [1]) w = (Ok s, w1) ∧
    VLQTheoryResult.color self (Some c) (Some [2]) w = (Ok s, w2) ∧
    same_notes w1 w2 ∧
    Note.color (heap w1 (VoiceLeadingQuartet.v1n2 (VLQTheoryResult.vlq self))) = Some c ∧
    Note.color (heap w2 (VoiceLeadingQuartet.v1n1 (VLQTheoryResult.vlq self))) = Some c.
Proof.
  intros Hshared.
  destruct (quad_color_marks self (Some c) (Some [1]) w) as (w1 & Hrun1 & _ & Hh1).
  destruct (quad_color_marks self (Some c) (Some [2]) w) as (w2 & Hrun2 & _ & Hh2).
  cbn [default from_option id selected quad_positions py_in existsb Z.eqb Pos.eqb orb]
    in Hh1, Hh2.
  eexists _, w1, w2. split; [exact Hrun1|]. split; [exact Hrun2|]. split; [|split].
  - intros r. by rewrite (Hh1 r), (Hh2 r), Hshared.
  - rewrite (Hh1 _), <- Hshared, bool_decide_eq_true_2; [done | apply list_elem_of_here].
  - rewrite (Hh2 _), Hshared, bool_decide_eq_true_2; [done | apply list_elem_of_here].
Qed.

Lemma quad_color_reaches_shared_note_witness :
  ∃ s w1 w2,
    VLQTheoryResult.color (VLQTheoryResult.init (VoiceLeadingQuartet.mk 1%nat 1%nat 3%nat 4%nat))
      (Some "red"%string) (Some [1]) fresh_world = (Ok s, w1) ∧
    VLQTheoryResult.color (VLQTheoryResult.init (VoiceLeadingQuartet.mk 1%nat 1%nat 3%nat 4%nat))
      (Some "red"%string) (Some [2]) fresh_world = (Ok s, w2) ∧
    same_notes w1 w2 ∧
    Note.color (heap w1 1%nat) = Some "red"%string ∧
    Note.color (heap w2 1%nat) = Some "red"%string.
Proof.
  exact (quad_color_reaches_shared_note
           (VLQTheoryResult.init (VoiceLeadingQuartet.mk 1%nat 1%nat 3%nat 4%nat))
           "red"%string fresh_world eq_refl).
Defined.

(** Claim C5 fails as stated.  In the quad whose positions 1 and 2 hold the
    same note object, [color] with the selection [[2]] leaves position 1
    unselected, yet the note at position 1, which had no color, is red
    afterwards. *)
Lemma color_reaches_note_at_unselected_position :
  py_in 1 [2] = false ∧
  Note.color (heap fresh_world
                (VoiceLeadingQuartet.v1n1 (VLQTheoryResult.vlq held_quad))) = None ∧
  Note.color
    (heap (VLQTheoryResult.color held_quad (Some "red"%string) (Some [2]) fresh_world).2
       (VoiceLeadingQuartet.v1n1 (VLQTheoryResult.vlq held_quad)))
  = Some "red"%string.
Proof. repeat split; vm_compute; reflexivity. Qed.
